(** * LatestBrowsingHistory: a shallow embedding and its verified properties

    The program copies a (possibly locked) Chromium history store to a
    temporary file, opens the copy with SQLite, runs one join query ordered by
    visit time, and prints every visit that falls inside a recency window.

    The embedding follows [LatestBrowsingHistory.cpp] function by function.
    Calls into the operating system, the C runtime and SQLite are modelled by
    an explicit world: a file system (a finite map from paths to files), the
    console output, and an environment record holding the answers of the
    calls whose result the program cannot influence. *)

From Stdlib Require Import ZArith Lia Ascii String List Sorting.Sorted.
From stdpp Require Import base option list gmap sorting.

Local Open Scope Z_scope.

(** ** Machine integers *)

Module Int64.

Definition min_signed : Z := - 2 ^ 63.
Definition max_signed : Z := 2 ^ 63 - 1.

(** Two's complement wrap-around of a mathematical integer into [int64_t]. *)
Definition wrap (z : Z) : Z := (z + 2 ^ 63) mod 2 ^ 64 - 2 ^ 63.

Definition in_range (z : Z) : Prop := min_signed <= z <= max_signed.

(** [a / b] on [int64_t]: the quotient truncated toward zero. *)
Definition div (a b : Z) : Z := wrap (Z.quot a b).

Definition sub (a b : Z) : Z := wrap (a - b).

End Int64.

(** ** Timestamp codec *)

(** [time_t] is a signed 64-bit count of seconds. *)
Definition time_t := Z.

Definition webkit_epoch_offset : Z := 11644473600.

(** [ConvertWebKitToUnixTime]: [webkitTime / 1000000 - 11644473600LL],
    computed on [int64_t]. *)
Definition ConvertWebKitToUnixTime (webkitTime : Z) : time_t :=
  Int64.sub (Int64.div webkitTime 1000000) webkit_epoch_offset.

(** ** Doubles holding integers

    [difftime] returns a [double] and the comparison against the window
    converts the [time_t] window to [double] as well.  Every value that
    occurs is an integer, so a double is represented by the integer it
    holds; [double_of_Z] is the conversion: round to nearest, ties to even,
    on a 53-bit significand. *)

Definition double_of_Z (z : Z) : Z :=
  let a := Z.abs z in
  if a <? 2 ^ 53 then z
  else
    let e := Z.log2 a - 52 in
    let ulp := 2 ^ e in
    let q := a / ulp in
    let r := a mod ulp in
    let half := ulp / 2 in
    let q' :=
      if r <? half then q
      else if half <? r then q + 1
      else if Z.even q then q else q + 1 in
    Z.sgn z * (q' * ulp).

(** [difftime(time1, time0)] of the Windows C runtime, which the program is
    built against.  The runtime validates its arguments: when either time is
    negative it returns 0 (and sets [errno] to [EINVAL]); otherwise it returns
    the difference in seconds, converted to double. *)
Definition difftime (time1 time0 : time_t) : Z :=
  if (0 <=? time1) && (0 <=? time0) then double_of_Z (time1 - time0) else 0.

(** The recency test of the row loop:
    [difftime(currentTime, visitTimeUnix) <= timeRangeInSeconds]. *)
Definition within_range (currentTime timeRangeInSeconds visitTimeUnix : time_t) : bool :=
  difftime currentTime visitTimeUnix <=? double_of_Z timeRangeInSeconds.

(** Integers of magnitude at most 2^53 are held exactly. *)
Definition exact_double (z : Z) : Prop := - 2 ^ 53 <= z <= 2 ^ 53.

(** ** Strings

    [std::string] holds UTF-8 bytes and is a [string]; [std::wstring] is a
    list of UTF-16 code units. *)

Abbreviation wchar_t := N (only parsing).
Abbreviation wstring := (list N) (only parsing).

(** A wide literal [L"..."]. *)
Definition L (s : string) : wstring := List.map N_of_ascii (list_ascii_of_string s).

Definition newline : wstring := [10%N].

(** What a [%s] conversion prints of [w.c_str()]: the code units before the
    first NUL. *)
Fixpoint c_str (w : wstring) : wstring :=
  match w with
  | [] => []
  | c :: w' => if (c =? 0)%N then [] else c :: c_str w'
  end.

Definition empty (s : string) : bool :=
  match s with EmptyString => true | String _ _ => false end.

(** ** Calendar time *)

(** [struct tm], the fields the formatter reads. *)
Record tm := {
  tm_sec : Z;
  tm_min : Z;
  tm_hour : Z;
  tm_mday : Z;
  tm_mon : Z;   (* months since January *)
  tm_year : Z   (* years since 1900 *)
}.

(** Civil date of a day count since 1970-01-01 in the proleptic Gregorian
    calendar: (year, month 1..12, day 1..31). *)
Definition civil_from_days (days : Z) : Z * Z * Z :=
  let z := days + 719468 in
  let era := z / 146097 in
  let doe := z mod 146097 in
  let yoe := (doe - doe / 1460 + doe / 36524 - doe / 146096) / 365 in
  let doy := doe - (365 * yoe + yoe / 4 - yoe / 100) in
  let mp := (5 * doy + 2) / 153 in
  let d := doy - (153 * mp + 2) / 5 + 1 in
  let m := if mp <? 10 then mp + 3 else mp - 9 in
  let y := yoe + era * 400 + (if m <=? 2 then 1 else 0) in
  (y, m, d).

(** The inverse: day count since 1970-01-01 of a civil date. *)
Definition days_from_civil (y m d : Z) : Z :=
  let y' := if m <=? 2 then y - 1 else y in
  let era := y' / 400 in
  let yoe := y' mod 400 in
  let mp := if 2 <? m then m - 3 else m + 9 in
  let doy := (153 * mp + 2) / 5 + d - 1 in
  let doe := yoe * 365 + yoe / 4 - yoe / 100 + doy in
  era * 146097 + doe - 719468.

(** Broken-down UTC time of a second count. *)
Definition utc_of_time (t : time_t) : tm :=
  let '(y, m, d) := civil_from_days (t / 86400) in
  let sod := t mod 86400 in
  {| tm_sec := sod mod 60;
     tm_min := sod / 60 mod 60;
     tm_hour := sod / 3600;
     tm_mday := d;
     tm_mon := m - 1;
     tm_year := y - 1900 |}.

(** Seconds since the epoch of a broken-down UTC time. *)
Definition time_of_utc (b : tm) : time_t :=
  days_from_civil (tm_year b + 1900) (tm_mon b + 1) (tm_mday b) * 86400
  + tm_hour b * 3600 + tm_min b * 60 + tm_sec b.

Definition digit (d : Z) : wchar_t := Z.to_N (48 + d mod 10).

(** The [n] low decimal digits of [z], most significant first, zero padded. *)
Fixpoint decimal (n : nat) (z : Z) : wstring :=
  match n with
  | O => []
  | S n' => decimal n' (z / 10) ++ [digit z]
  end.

(** [wcsftime] with the format [L"%Y-%m-%d %H:%M:%S"], for years 0..9999. *)
Definition wcsftime (b : tm) : wstring :=
  decimal 4 (tm_year b + 1900) ++ L "-" ++ decimal 2 (tm_mon b + 1) ++ L "-"
  ++ decimal 2 (tm_mday b) ++ L " " ++ decimal 2 (tm_hour b) ++ L ":"
  ++ decimal 2 (tm_min b) ++ L ":" ++ decimal 2 (tm_sec b).

Definition is_digit (c : wchar_t) : bool := ((48 <=? c) && (c <=? 57))%N.

(** The shape [YYYY-MM-DD HH:MM:SS]. *)
Definition timestamp_form (w : wstring) : bool :=
  match w with
  | [y1; y2; y3; y4; s1; m1; m2; s2; d1; d2; s3; h1; h2; s4; n1; n2; s5; c1; c2] =>
      forallb is_digit [y1; y2; y3; y4; m1; m2; d1; d2; h1; h2; n1; n2; c1; c2]
      && (s1 =? 45)%N && (s2 =? 45)%N && (s3 =? 32)%N && (s4 =? 58)%N && (s5 =? 58)%N
  | _ => false
  end.

(** First and last second of the years 1000 and 9999. *)
Definition year_1000_start : time_t := -30610224000.
Definition year_9999_end : time_t := 253402300799.

(** ** The history store

    The two relations the query reads.  SQLite stores INTEGER values as
    signed 64-bit integers; a text column may hold NULL. *)

Record UrlRow := { url_id : Z; url_text : option string }.
Record VisitRow := { visit_url : Z; visit_time : Z }.

(** A relation that is [None] is absent from the schema. *)
Record Database := {
  urls : option (list UrlRow);
  visits : option (list VisitRow)
}.

(** A result row of the query: [u.url] and [v.visit_time]. *)
Record Row := { row_url : option string; row_time : Z }.

(** [r1] may precede [r2] under [ORDER BY v.visit_time DESC]. *)
Definition later (r1 r2 : Row) : Prop := row_time r2 <= row_time r1.

#[global] Instance later_dec : RelDecision later.
Proof. intros r1 r2. unfold later. apply _. Defined.

#[global] Instance later_total : Total later.
Proof. intros r1 r2. unfold later. lia. Qed.

#[global] Instance later_trans : Transitive later.
Proof. intros r1 r2 r3. unfold later. lia. Qed.

(** [FROM urls u JOIN visits v ON u.id = v.url]. *)
Definition join_on_id (us : list UrlRow) (vs : list VisitRow) : list Row :=
  List.flat_map
    (fun v =>
       List.map (fun u => {| row_url := url_text u; row_time := visit_time v |})
                (List.filter (fun u => url_id u =? visit_url v) us))
    vs.

Inductive PrepareResult :=
| SQLITE_OK (stmt : list Row)
| SQLITE_ERROR (errmsg : string).

(** The query text of the program, read with SQL's meaning:
    [SELECT u.url, v.visit_time FROM urls u JOIN visits v ON u.id = v.url
    ORDER BY v.visit_time DESC;].  Preparing it fails when a relation it
    names is absent. *)
Definition history_query (d : Database) : PrepareResult :=
  match urls d, visits d with
  | Some us, Some vs => SQLITE_OK (merge_sort later (join_on_id us vs))
  | None, _ => SQLITE_ERROR "no such table: urls"
  | _, None => SQLITE_ERROR "no such table: visits"
  end.

(** ** The world *)

Inductive Content :=
| Raw (bytes : list N)      (* not an SQLite database *)
| SQLite (d : Database).

Record File := { file_data : Content; file_mtime : Z }.

(** File-system and database calls, in the order they are made. *)
Inductive FsEvent :=
| EvCreate (p : wstring)
| EvRead (p : wstring)
| EvWrite (p : wstring)
| EvRemove (p : wstring)
| EvOpen (p : wstring)
| EvClose (p : wstring).

Record State := {
  fs : gmap (list N) File;      (* the files that exist *)
  out : list (list N);          (* console output, one chunk per [wprintf] *)
  events : list FsEvent
}.

Definition set_fs (f : gmap (list N) File -> gmap (list N) File) (s : State) : State :=
  {| fs := f (fs s); out := out s; events := events s |}.

Definition add_out (text : wstring) (s : State) : State :=
  {| fs := fs s; out := out s ++ [text]; events := events s |}.

Definition add_event (e : FsEvent) (s : State) : State :=
  {| fs := fs s; out := out s; events := events s ++ [e] |}.

(** Answers of the platform that the program does not control. *)
Record Env := {
  SHGetFolderPathW : option (list N);     (* CSIDL_PROFILE; [None]: failure *)
  time_now : time_t;                      (* [std::time(nullptr)] *)
  GetTempPathW : option (list N);         (* [None]: returns 0 *)
  temp_dir_usable : bool;                 (* files can be created there *)
  unique_seed : N;                        (* the system time the unique number
                                             starts from *)
  copy_error : list N -> option string;   (* source exists but cannot be read *)
  open_error : list N -> bool;            (* [sqlite3_open16] is not SQLITE_OK *)
  MultiByteToWideChar : string -> list N; (* CP_UTF8, with the terminating NUL;
                                             [[]]: returns 0 *)
  gmtime_min : time_t;                    (* range accepted by [gmtime_s] *)
  gmtime_max : time_t
}.

(** ** Outcomes

    A call either returns a value in a new world or the process dies there
    (undefined behaviour: a null pointer is dereferenced).  Exceptions that
    the program catches are values of the call that throws them. *)

Inductive Outcome (A : Type) :=
| Returned (a : A) (s : State)
| Crashed (s : State).

Arguments Returned {A} a s.
Arguments Crashed {A} s.

Definition M (A : Type) : Type := State -> Outcome A.

#[global] Instance M_ret : MRet M := fun A a s => Returned a s.

#[global] Instance M_bind : MBind M := fun A B f m s =>
  match m s with
  | Returned a s' => f a s'
  | Crashed s' => Crashed s'
  end.

Definition final_state {A} (o : Outcome A) : State :=
  match o with Returned _ s => s | Crashed s => s end.

Definition returned {A} (o : Outcome A) : bool :=
  match o with Returned _ _ => true | Crashed _ => false end.

(** ** The program *)

Section Program.

Variable E : Env.

Definition wprintf (text : wstring) : M unit :=
  fun s => Returned tt (add_out text s).

(** [ConvertUtf8ToWide]: empty input and a failed size query both give the
    empty wide string; otherwise the converted buffer, NUL included. *)
Definition ConvertUtf8ToWide (utf8Str : string) : wstring :=
  if empty utf8Str then []
  else
    let wideCharCount := length (MultiByteToWideChar E utf8Str) in
    if Nat.eqb wideCharCount 0 then []
    else MultiByteToWideChar E utf8Str.

(** Building the [const std::string&] argument from a [const char*]:
    a null pointer is dereferenced. *)
Definition std_string (p : option string) : M string :=
  fun s => match p with Some str => Returned str s | None => Crashed s end.

Definition GetUserProfilePath : wstring :=
  match SHGetFolderPathW E with
  | Some path => c_str path
  | None => []
  end.

(** [gmtime_s]: [None] stands for a nonzero error code. *)
Definition gmtime_s (unixTime : time_t) : option tm :=
  if (gmtime_min E <=? unixTime) && (unixTime <=? gmtime_max E)
  then Some (utc_of_time unixTime)
  else None.

Definition FormatUnixTimeToUTC (unixTime : time_t) : wstring :=
  match gmtime_s unixTime with
  | None => L "Invalid time"
  | Some timeInfo => wcsftime timeInfo
  end.

(** *** Temporary files *)

Definition hex_digit (d : N) : wchar_t :=
  (if d <? 10 then 48 + d else 55 + d)%N.

Definition hex4 (n : N) : wstring :=
  [hex_digit (n / 4096 mod 16); hex_digit (n / 256 mod 16);
   hex_digit (n / 16 mod 16); hex_digit (n mod 16)]%N.

(** [<path><pre><uuuu>.TMP]; the prefix is cut to three characters. *)
Definition temp_file_name (dir : wstring) (prefix : string) (n : N) : wstring :=
  dir ++ L (substring 0 3 prefix) ++ hex4 n ++ L ".TMP".

Definition next_unique (n : N) : N := (if n =? 65535 then 1 else n + 1)%N.

(** With [uUnique = 0] the candidate numbers are tried in turn until one
    names no existing file. *)
Fixpoint find_unique (fuel : nat) (dir : wstring) (prefix : string) (n : N)
    (files : gmap (list N) File) : option N :=
  match fuel with
  | O => None
  | S fuel' =>
      match files !! temp_file_name dir prefix n with
      | None => Some n
      | Some _ => find_unique fuel' dir prefix (next_unique n) files
      end
  end.

Definition unique_attempts : nat := Pos.to_nat 65535.

Definition empty_file : File := {| file_data := Raw []; file_mtime := time_now E |}.

(** [GetTempFileNameW(dir, prefix, 0, out)]: picks an unused name and
    creates the empty file; [None] stands for the return value 0. *)
Definition GetTempFileNameW (dir : wstring) (prefix : string) : M (option (list N)) :=
  fun s =>
    if temp_dir_usable E then
      match find_unique unique_attempts dir prefix
                        (1 + unique_seed E mod 65535)%N (fs s) with
      | Some n =>
          let name := temp_file_name dir prefix n in
          Returned (Some name)
                   (add_event (EvCreate name) (set_fs (insert name empty_file) s))
      | None => Returned None s
      end
    else Returned None s.

(** [std::filesystem::copy_file(from, to, overwrite_existing)]: [Some what]
    stands for the [filesystem_error] thrown. *)
Definition copy_file (from to : wstring) : M (option string) :=
  fun s =>
    match fs s !! from with
    | None => Returned (Some "copy_file: no such file or directory"%string) s
    | Some f =>
        if bool_decide (from = to)
        then Returned (Some "copy_file: file exists"%string) s
        else
          match copy_error E from with
          | Some what => Returned (Some what) s
          | None =>
              Returned None
                (add_event (EvWrite to)
                   (add_event (EvRead from) (set_fs (insert to f) s)))
          end
    end.

(** [std::filesystem::remove].  The file is the program's own temporary
    file, closed by then; deleting it is taken to succeed. *)
Definition remove (p : wstring) : M bool :=
  fun s =>
    Returned (bool_decide (is_Some (fs s !! p)))
             (add_event (EvRemove p) (set_fs (delete p) s)).

Definition CopyDatabaseToTemp (dbPath : wstring) : M (bool * list N) :=
  match GetTempPathW E with
  | None => mret (false, [])
  | Some tempPath =>
      tempFileName ← GetTempFileNameW tempPath "dbcopy";
      match tempFileName with
      | None => mret (false, [])
      | Some tempFileName =>
          let tempDbPath := tempFileName in
          thrown ← copy_file dbPath tempDbPath;
          match thrown with
          | None => mret (true, tempDbPath)
          | Some what =>
              wprintf (L "Failed to copy database: "
                       ++ c_str (ConvertUtf8ToWide what) ++ newline);;
              mret (false, tempDbPath)
          end
      end
  end.

(** *** SQLite *)

(** A connection is named by the file it was opened on. *)
Definition sqlite3_open16 (filename : wstring) : M (option (list N)) :=
  fun s =>
    if open_error E filename then Returned None s
    else Returned (Some filename) (add_event (EvOpen filename) s).

(** [sqlite3_prepare_v2] of the history query.  A missing or empty file is
    an empty database. *)
Definition sqlite3_prepare_v2 (db : wstring) : M PrepareResult :=
  fun s =>
    Returned
      match fs s !! db with
      | None => SQLITE_ERROR "no such table: urls"
      | Some f =>
          match file_data f with
          | Raw [] => SQLITE_ERROR "no such table: urls"
          | Raw (_ :: _) => SQLITE_ERROR "file is not a database"
          | SQLite d => history_query d
          end
      end
      s.

(** [sqlite3_finalize]: the statement holds nothing of the world. *)
Definition sqlite3_finalize (stmt : list Row) : M unit := mret tt.

Definition sqlite3_close (db : wstring) : M unit :=
  fun s => Returned tt (add_event (EvClose db) s).

Definition sqlite3_column_text (r : Row) : option string := row_url r.
Definition sqlite3_column_int64 (r : Row) : Z := row_time r.

(** The line printed for a row inside the window. *)
Definition entry_line (foundUrl visitTimeStr : wstring) : wstring :=
  L "URL: " ++ c_str foundUrl ++ L ", Visit Time (UTC): "
  ++ c_str visitTimeStr ++ newline.

(** Body of the row loop. *)
Definition process_row (currentTime timeRangeInSeconds : time_t) (r : Row) : M unit :=
  let foundUrlUtf8 := sqlite3_column_text r in
  let visitTimeWebKit := sqlite3_column_int64 r in
  let visitTimeUnix := ConvertWebKitToUnixTime visitTimeWebKit in
  if within_range currentTime timeRangeInSeconds visitTimeUnix then
    utf8Str ← std_string foundUrlUtf8;
    let foundUrl := ConvertUtf8ToWide utf8Str in
    let visitTimeStr := FormatUnixTimeToUTC visitTimeUnix in
    wprintf (entry_line foundUrl visitTimeStr)
  else mret tt.

(** [while (sqlite3_step(stmt) == SQLITE_ROW) ...]: the statement yields its
    rows one by one; the loop ends at the first result that is not a row,
    [SQLITE_DONE] or an error alike, so a statement is the list of the rows
    it yields before that. *)
Fixpoint step_rows (currentTime timeRangeInSeconds : time_t) (stmt : list Row) : M unit :=
  match stmt with
  | [] => mret tt
  | r :: stmt' =>
      process_row currentTime timeRangeInSeconds r;;
      step_rows currentTime timeRangeInSeconds stmt'
  end.

Definition PrintUrlsFromDatabase (dbPath : wstring)
    (currentTime timeRangeInSeconds : time_t) : M unit :=
  '(copied, tempDbPath) ← CopyDatabaseToTemp dbPath;
  if negb copied then
    wprintf (L "Failed to copy database to temporary file: "
             ++ c_str dbPath ++ newline)
  else
    opened ← sqlite3_open16 tempDbPath;
    match opened with
    | None =>
        wprintf (L "Failed to open database: " ++ c_str tempDbPath ++ newline)
    | Some db =>
        prepared ← sqlite3_prepare_v2 db;
        match prepared with
        | SQLITE_ERROR errmsg =>
            wprintf (L "Failed to prepare statement: " ++ L errmsg ++ newline);;
            sqlite3_close db
        | SQLITE_OK stmt =>
            step_rows currentTime timeRangeInSeconds stmt;;
            sqlite3_finalize stmt;;
            sqlite3_close db;;
            remove tempDbPath;;
            mret tt
        end
    end.

Definition chrome_suffix : string :=
  "\AppData\Local\Google\Chrome\User Data\Default\History".

Definition edge_suffix : string :=
  "\AppData\Local\Microsoft\Edge\User Data\Default\History".

Definition wmain : M Z :=
  let currentTime := time_now E in
  let timeRangeInSeconds := 10 * 60 in
  let userProfilePath := GetUserProfilePath in
  match userProfilePath with
  | [] =>
      wprintf (L "Failed to get user profile path." ++ newline);;
      mret 1
  | _ :: _ =>
      let chromeHistoryPath := userProfilePath ++ L chrome_suffix in
      let edgeHistoryPath := userProfilePath ++ L edge_suffix in
      wprintf (L "Checking Chrome browsing history:" ++ newline);;
      PrintUrlsFromDatabase chromeHistoryPath currentTime timeRangeInSeconds;;
      wprintf (newline ++ L "Checking Edge browsing history:" ++ newline);;
      PrintUrlsFromDatabase edgeHistoryPath currentTime timeRangeInSeconds;;
      mret 0
  end.

End Program.

(** ** Vocabulary of the statements *)

Definition in_window (currentTime timeRangeInSeconds : time_t) (r : Row) : bool :=
  within_range currentTime timeRangeInSeconds (ConvertWebKitToUnixTime (row_time r)).

(** A row inside the window whose URL column is NULL. *)
Definition null_in_window (currentTime timeRangeInSeconds : time_t) (r : Row) : bool :=
  in_window currentTime timeRangeInSeconds r
  && match row_url r with None => true | Some _ => false end.

(** The rows the loop reaches: those before the first NULL URL in the window. *)
Fixpoint reached (currentTime timeRangeInSeconds : time_t) (stmt : list Row) : list Row :=
  match stmt with
  | [] => []
  | r :: stmt' =>
      if null_in_window currentTime timeRangeInSeconds r then []
      else r :: reached currentTime timeRangeInSeconds stmt'
  end.

(** The line of a row whose URL is present. *)
Definition line_of (E : Env) (r : Row) : wstring :=
  entry_line
    (match row_url r with Some u => ConvertUtf8ToWide E u | None => [] end)
    (FormatUnixTimeToUTC E (ConvertWebKitToUnixTime (row_time r))).

(** The lines one run of the loop prints. *)
Definition printed (E : Env) (currentTime timeRangeInSeconds : time_t)
    (stmt : list Row) : list (list N) :=
  List.map (line_of E)
    (List.filter (in_window currentTime timeRangeInSeconds)
       (reached currentTime timeRangeInSeconds stmt)).

(** A line that reports a failure. *)
Definition is_diagnostic (line : wstring) : bool :=
  bool_decide (take 10 line = L "Failed to ").

(** A line that reports a visit. *)
Definition is_entry (line : wstring) : bool :=
  bool_decide (take 5 line = L "URL: ").

(** Times within 2^52 seconds of the epoch (142 million years). *)
Definition plausible_time (t : time_t) : Prop := - 2 ^ 52 <= t <= 2 ^ 52.

(** Reading a printed time back. *)
Definition digit_value (c : wchar_t) : Z := Z.of_N c - 48.

Definition number_of (w : wstring) : Z :=
  List.fold_left (fun acc c => 10 * acc + digit_value c) w 0.

Definition read_timestamp (w : wstring) : tm :=
  {| tm_sec := number_of (take 2 (drop 17 w));
     tm_min := number_of (take 2 (drop 14 w));
     tm_hour := number_of (take 2 (drop 11 w));
     tm_mday := number_of (take 2 (drop 8 w));
     tm_mon := number_of (take 2 (drop 5 w)) - 1;
     tm_year := number_of (take 4 w) - 1900 |}.

(** A broken-down time whose fields are in their calendar ranges, with a
    four-digit year. *)
Definition valid_tm (b : tm) : Prop :=
  1000 <= tm_year b + 1900 <= 9999 /\ 0 <= tm_mon b <= 11 /\ 1 <= tm_mday b <= 31
  /\ 0 <= tm_hour b <= 23 /\ 0 <= tm_min b <= 59 /\ 0 <= tm_sec b <= 59.

(** The three stages at which an extraction gives up. *)
Inductive Stage := CopyStage | OpenStage | PrepareStage.

(** The stage at which the extraction of [dbPath] started in [s] gives up;
    [None] when the copy, the open and the prepare all succeed. *)
Definition failing_stage (E : Env) (dbPath : wstring) (s : State) : option Stage :=
  match CopyDatabaseToTemp E dbPath s with
  | Returned (false, _) _ => Some CopyStage
  | Returned (true, tempDbPath) s1 =>
      match sqlite3_open16 E tempDbPath s1 with
      | Returned None _ => Some OpenStage
      | Returned (Some db) s2 =>
          match sqlite3_prepare_v2 db s2 with
          | Returned (SQLITE_ERROR _) _ => Some PrepareStage
          | _ => None
          end
      | Crashed _ => None
      end
  | Crashed _ => None
  end.

Definition add_outs (lines : list (list N)) (s : State) : State :=
  {| fs := fs s; out := out s ++ lines; events := events s |}.

(** The world after [GetTempFileNameW] created [t]. *)
Definition created (E : Env) (t : wstring) (s : State) : State :=
  add_event (EvCreate t) (set_fs (insert t (empty_file E)) s).

(** The world after the file [f] at [p] was copied over the fresh [t]. *)
Definition copied (E : Env) (p t : wstring) (f : File) (s : State) : State :=
  add_event (EvWrite t) (add_event (EvRead p) (set_fs (insert t f) (created E t s))).

Definition event_path (e : FsEvent) : wstring :=
  match e with
  | EvCreate p | EvRead p | EvWrite p | EvRemove p | EvOpen p | EvClose p => p
  end.

(** The statement a store file yields, when it is a history database. *)
Definition store_rows (f : File) : option (list Row) :=
  match file_data f with
  | SQLite d =>
      match history_query d with
      | SQLITE_OK stmt => Some stmt
      | SQLITE_ERROR _ => None
      end
  | Raw _ => None
  end.

(** The diagnostics. *)
Definition copy_diagnostic (E : Env) (what : string) : list N :=
  L "Failed to copy database: " ++ c_str (ConvertUtf8ToWide E what) ++ newline.

Definition copy_giveup_line (dbPath : list N) : list N :=
  L "Failed to copy database to temporary file: " ++ c_str dbPath ++ newline.

Definition open_line (tempDbPath : list N) : list N :=
  L "Failed to open database: " ++ c_str tempDbPath ++ newline.

Definition prepare_line (errmsg : string) : list N :=
  L "Failed to prepare statement: " ++ L errmsg ++ newline.

(** The world in which the rows are stepped: the copy is made and open. *)
Definition opened (E : Env) (p t : list N) (f : File) (s : State) : State :=
  add_event (EvOpen t) (copied E p t f s).

(** The paths through one extraction, each with the outcome it has and the
    stage at which it gave up. *)
Inductive Extraction (E : Env) (p : list N) (currentTime timeRangeInSeconds : time_t)
    (s : State) : Outcome unit -> option Stage -> Prop :=
| ex_no_temp :
    Extraction E p currentTime timeRangeInSeconds s
      (Returned tt (add_out (copy_giveup_line p) s)) (Some CopyStage)
| ex_copy_failed t what :
    fs s !! t = None ->
    Extraction E p currentTime timeRangeInSeconds s
      (Returned tt (add_out (copy_giveup_line p)
                      (add_out (copy_diagnostic E what) (created E t s))))
      (Some CopyStage)
| ex_open_failed t f :
    fs s !! t = None -> fs s !! p = Some f -> p <> t ->
    Extraction E p currentTime timeRangeInSeconds s
      (Returned tt (add_out (open_line t) (copied E p t f s))) (Some OpenStage)
| ex_prepare_failed t f errmsg :
    fs s !! t = None -> fs s !! p = Some f -> p <> t -> store_rows f = None ->
    Extraction E p currentTime timeRangeInSeconds s
      (Returned tt (add_event (EvClose t)
                      (add_out (prepare_line errmsg) (opened E p t f s))))
      (Some PrepareStage)
| ex_crashed t f stmt :
    fs s !! t = None -> fs s !! p = Some f -> p <> t -> store_rows f = Some stmt ->
    existsb (null_in_window currentTime timeRangeInSeconds) stmt = true ->
    Extraction E p currentTime timeRangeInSeconds s
      (Crashed (add_outs (printed E currentTime timeRangeInSeconds stmt)
                  (opened E p t f s)))
      None
| ex_completed t f stmt :
    fs s !! t = None -> fs s !! p = Some f -> p <> t -> store_rows f = Some stmt ->
    existsb (null_in_window currentTime timeRangeInSeconds) stmt = false ->
    Extraction E p currentTime timeRangeInSeconds s
      (Returned tt
         (add_event (EvRemove t)
            (set_fs (delete t)
               (add_event (EvClose t)
                  (add_outs (printed E currentTime timeRangeInSeconds stmt)
                     (opened E p t f s))))))
      None.


(** ** A sample platform and sample stores *)

Module Sample.

(** Transcoding of 7-bit text, which is all the samples hold; any other
    byte becomes U+FFFD. *)
Definition to_wide (s : string) : wstring :=
  List.map (fun a => let n := N_of_ascii a in if (n <? 128)%N then n else 65533%N)
           (list_ascii_of_string s) ++ [0%N].

Definition env : Env := {|
  SHGetFolderPathW := Some (L "C:\Users\alice" ++ [0%N]);
  time_now := 1704067800;                 (* 2024-01-01 00:10:00 UTC *)
  GetTempPathW := Some (L "C:\Temp\");
  temp_dir_usable := true;
  unique_seed := 0;
  copy_error := fun _ => None;
  open_error := fun _ => false;
  MultiByteToWideChar := to_wide;
  gmtime_min := -43200;
  gmtime_max := 32535244799 + 50400
|}.

(** The same platform where the profile directory is unknown. *)
Definition env_no_profile : Env := {|
  SHGetFolderPathW := None;
  time_now := time_now env;
  GetTempPathW := GetTempPathW env;
  temp_dir_usable := true;
  unique_seed := 0;
  copy_error := fun _ => None;
  open_error := fun _ => false;
  MultiByteToWideChar := to_wide;
  gmtime_min := gmtime_min env;
  gmtime_max := gmtime_max env
|}.

(** The same platform where SQLite cannot open any file. *)
Definition env_no_open : Env := {|
  SHGetFolderPathW := SHGetFolderPathW env;
  time_now := time_now env;
  GetTempPathW := GetTempPathW env;
  temp_dir_usable := true;
  unique_seed := 0;
  copy_error := fun _ => None;
  open_error := fun _ => true;
  MultiByteToWideChar := to_wide;
  gmtime_min := gmtime_min env;
  gmtime_max := gmtime_max env
|}.

Definition chrome_path : wstring := L "C:\Users\alice" ++ L chrome_suffix.
Definition edge_path : wstring := L "C:\Users\alice" ++ L edge_suffix.

(** WebKit microseconds of 2024-01-01 00:00:00 UTC. *)
Definition midnight : Z := 13348540800000000.

Definition second : Z := 1000000.

Definition mk_db (us : list (Z * option string)) (vs : list (Z * Z)) : Database := {|
  urls := Some (List.map (fun p => {| url_id := fst p; url_text := snd p |}) us);
  visits := Some (List.map (fun p => {| visit_url := fst p; visit_time := snd p |}) vs)
|}.

(** Two visits: one at 00:00:00 and one at 00:09:00. *)
Definition two_visits : Database :=
  mk_db [(1, Some "https://example.org"%string); (2, Some "https://example.com"%string)]
        [(1, midnight); (2, midnight + 540 * second)].

(** Ten visits inside the window; the URL of the fifth most recent is NULL. *)
Definition ten_visits : Database :=
  mk_db [(1, Some "https://a.example/1"%string); (2, Some "https://a.example/2"%string);
         (3, Some "https://a.example/3"%string); (4, Some "https://a.example/4"%string);
         (5, None); (6, Some "https://a.example/6"%string);
         (7, Some "https://a.example/7"%string); (8, Some "https://a.example/8"%string);
         (9, Some "https://a.example/9"%string); (10, Some "https://a.example/10"%string)]
        [(1, midnight + 590 * second); (2, midnight + 580 * second);
         (3, midnight + 570 * second); (4, midnight + 560 * second);
         (5, midnight + 550 * second); (6, midnight + 540 * second);
         (7, midnight + 530 * second); (8, midnight + 520 * second);
         (9, midnight + 510 * second); (10, midnight + 500 * second)].


Definition file_of (c : Content) : File := {| file_data := c; file_mtime := 1704060000 |}.

Definition world (files : list (list N * File)) : State :=
  {| fs := list_to_map files; out := []; events := [] |}.

(** Chrome's store holds [two_visits]; Edge has none. *)
Definition world_chrome_only : State :=
  world [(chrome_path, file_of (SQLite two_visits))].

(** Chrome's store is not a database; Edge's holds [two_visits]. *)
Definition world_chrome_garbage : State :=
  world [(chrome_path, file_of (Raw [1; 2; 3]%N));
         (edge_path, file_of (SQLite two_visits))].

Definition world_ten : State :=
  world [(chrome_path, file_of (SQLite ten_visits))].


(** The first temporary name the sample platform hands out. *)
Definition first_temp : wstring := L "C:\Temp\dbc0001.TMP".

End Sample.

(** * Properties *)

(** ** Machine integers and doubles *)

Lemma wrap_in_range z : Int64.in_range z -> Int64.wrap z = z.
Proof.
  unfold Int64.in_range, Int64.min_signed, Int64.max_signed, Int64.wrap.
  intros H. rewrite Z.mod_small; lia.
Qed.

Lemma wrap_range z : Int64.in_range (Int64.wrap z).
Proof.
  unfold Int64.in_range, Int64.min_signed, Int64.max_signed, Int64.wrap.
  pose proof (Z.mod_pos_bound (z + 2 ^ 63) (2 ^ 64) ltac:(lia)). lia.
Qed.

Lemma quot_million_bounds z :
  Int64.in_range z -> - 9223372036855 <= Z.quot z 1000000 <= 9223372036855.
Proof.
  unfold Int64.in_range, Int64.min_signed, Int64.max_signed. intros H.
  pose proof (Z.quot_rem' z 1000000) as Hqr.
  destruct (Z_le_gt_dec 0 z) as [Hz | Hz].
  - pose proof (Z.rem_bound_pos z 1000000 Hz ltac:(lia)). lia.
  - pose proof (Z.rem_bound_pos_neg z 1000000 ltac:(lia) ltac:(lia)). lia.
Qed.

(** The decoder never overflows: on [int64_t] inputs the wrap-arounds of the
    division and of the subtraction are the identity. *)
Lemma ConvertWebKitToUnixTime_eq webkitTime :
  Int64.in_range webkitTime ->
  ConvertWebKitToUnixTime webkitTime = Z.quot webkitTime 1000000 - 11644473600.
Proof.
  intros H. pose proof (quot_million_bounds webkitTime H) as Hq.
  unfold ConvertWebKitToUnixTime, Int64.sub, Int64.div, webkit_epoch_offset.
  rewrite (wrap_in_range (Z.quot webkitTime 1000000)).
  - apply wrap_in_range.
    unfold Int64.in_range, Int64.min_signed, Int64.max_signed. lia.
  - unfold Int64.in_range, Int64.min_signed, Int64.max_signed. lia.
Qed.

Lemma ConvertWebKitToUnixTime_bounds webkitTime :
  Int64.in_range webkitTime ->
  - 9235016510455 <= ConvertWebKitToUnixTime webkitTime <= 9211727563255.
Proof.
  intros H. rewrite ConvertWebKitToUnixTime_eq by assumption.
  pose proof (quot_million_bounds webkitTime H). lia.
Qed.

Lemma double_of_Z_exact z : exact_double z -> double_of_Z z = z.
Proof.
  unfold exact_double, double_of_Z. intros H.
  destruct (Z.ltb_spec (Z.abs z) (2 ^ 53)) as [Hlt | Hge]; [reflexivity |].
  assert (Ha : Z.abs z = 2 ^ 53) by lia.
  rewrite Ha.
  replace (Z.log2 (2 ^ 53)) with 53 by (symmetry; apply Z.log2_pow2; lia).
  change (53 - 52) with 1. change (2 ^ 1) with 2.
  change (2 ^ 53 mod 2) with 0. change (2 / 2) with 1.
  change (0 <? 1) with true. cbv beta iota zeta.
  change (2 ^ 53 / 2 * 2) with (2 ^ 53).
  rewrite <- Ha. rewrite Z.mul_comm. apply Z.abs_sgn.
Qed.

(** On times that are not negative [difftime] is the rounded difference. *)
Lemma difftime_nonneg time1 time0 :
  0 <= time1 -> 0 <= time0 -> difftime time1 time0 = double_of_Z (time1 - time0).
Proof.
  intros H1 H0. unfold difftime.
  destruct (Z.leb_spec 0 time1); [| lia].
  destruct (Z.leb_spec 0 time0); [reflexivity | lia].
Qed.

(** A negative time makes [difftime] return 0. *)
Lemma difftime_negative time1 time0 :
  time1 < 0 \/ time0 < 0 -> difftime time1 time0 = 0.
Proof.
  intros Hneg. unfold difftime.
  destruct (Z.leb_spec 0 time1); [| reflexivity].
  destruct (Z.leb_spec 0 time0); [lia | reflexivity].
Qed.

(** On times that are not negative and exactly representable operands the
    test on doubles is the test on integers. *)
Lemma within_range_exact currentTime timeRangeInSeconds visitTimeUnix :
  0 <= currentTime -> 0 <= visitTimeUnix ->
  exact_double (currentTime - visitTimeUnix) ->
  exact_double timeRangeInSeconds ->
  within_range currentTime timeRangeInSeconds visitTimeUnix
  = (currentTime - visitTimeUnix <=? timeRangeInSeconds).
Proof.
  intros Hc Hv Hd Hr. unfold within_range.
  rewrite difftime_nonneg by assumption.
  rewrite !double_of_Z_exact by assumption. reflexivity.
Qed.

Lemma plausible_difference currentTime webkitTime :
  plausible_time currentTime -> Int64.in_range webkitTime ->
  exact_double (currentTime - ConvertWebKitToUnixTime webkitTime).
Proof.
  unfold plausible_time, exact_double. intros Hc Hw.
  pose proof (ConvertWebKitToUnixTime_bounds webkitTime Hw).
  change (2 ^ 52) with 4503599627370496 in Hc.
  change (2 ^ 53) with 9007199254740992. lia.
Qed.

Lemma window_exact timeRangeInSeconds :
  0 <= timeRangeInSeconds <= 2 ^ 53 -> exact_double timeRangeInSeconds.
Proof. unfold exact_double. lia. Qed.

(** ** C5: the timestamp decoder *)

(** C5. For every [int64_t] input the decoder returns
    [encoded / 1000000 - 11644473600] without wrap-around, and the division
    truncates toward zero: the whole seconds [q] kept satisfy
    [|q * 1000000| <= |encoded| < |q * 1000000| + 1000000] and never have the
    opposite sign of the input, so the microseconds inside a second are
    dropped, not rounded. *)
Theorem ConvertWebKitToUnixTime_truncates (webkitTime : Z) :
  Int64.in_range webkitTime ->
  let q := ConvertWebKitToUnixTime webkitTime + 11644473600 in
  ConvertWebKitToUnixTime webkitTime = Z.quot webkitTime 1000000 - 11644473600
  /\ Z.abs (q * 1000000) <= Z.abs webkitTime < Z.abs (q * 1000000) + 1000000
  /\ 0 <= q * webkitTime
  /\ Int64.in_range (ConvertWebKitToUnixTime webkitTime).
Proof.
  intros H q. subst q.
  pose proof (ConvertWebKitToUnixTime_bounds webkitTime H) as Hb.
  rewrite ConvertWebKitToUnixTime_eq in * by assumption.
  replace (Z.quot webkitTime 1000000 - 11644473600 + 11644473600)
    with (Z.quot webkitTime 1000000) by lia.
  pose proof (Z.quot_rem' webkitTime 1000000) as Hqr.
  split; [reflexivity |].
  destruct (Z_le_gt_dec 0 webkitTime) as [Hz | Hz].
  - pose proof (Z.rem_bound_pos webkitTime 1000000 Hz ltac:(lia)) as Hr.
    assert (0 <= Z.quot webkitTime 1000000) by (apply Z.quot_pos; lia).
    repeat split; try nia.
    all: unfold Int64.in_range, Int64.min_signed, Int64.max_signed; try lia.
  - pose proof (Z.rem_bound_pos_neg webkitTime 1000000 ltac:(lia) ltac:(lia)) as Hr.
    assert (Z.quot webkitTime 1000000 <= 0) by lia.
    repeat split; try nia.
    all: unfold Int64.in_range, Int64.min_signed, Int64.max_signed; try lia.
Qed.

Lemma ConvertWebKitToUnixTime_truncates_witness :
  Int64.in_range (-1999999)
  /\ ConvertWebKitToUnixTime (-1999999) = -11644473601
  /\ ConvertWebKitToUnixTime 13348540800999999 = 1704067200.
Proof.
  assert (H1 : Int64.in_range (-1999999))
    by (unfold Int64.in_range, Int64.min_signed, Int64.max_signed; lia).
  assert (H2 : Int64.in_range 13348540800999999)
    by (unfold Int64.in_range, Int64.min_signed, Int64.max_signed; lia).
  split; [exact H1 |].
  split.
  - exact (proj1 (ConvertWebKitToUnixTime_truncates (-1999999) H1)).
  - exact (proj1 (ConvertWebKitToUnixTime_truncates 13348540800999999 H2)).
Defined.

(** ** C4 and C3: the recency window *)

Ltac solve_range :=
  unfold plausible_time, exact_double, Int64.in_range,
    Int64.min_signed, Int64.max_signed in *; lia.

Lemma in_window_le currentTime timeRangeInSeconds r :
  plausible_time currentTime -> 0 <= currentTime ->
  Int64.in_range (row_time r) -> 0 <= ConvertWebKitToUnixTime (row_time r) ->
  0 <= timeRangeInSeconds <= 2 ^ 53 ->
  in_window currentTime timeRangeInSeconds r
  = (currentTime - ConvertWebKitToUnixTime (row_time r) <=? timeRangeInSeconds).
Proof.
  intros Hc Hc0 Ht Hv Hr. unfold in_window.
  apply within_range_exact; try assumption.
  - apply plausible_difference; assumption.
  - apply window_exact; assumption.
Qed.

(** C4, as the code has it. For every record with an [int64_t] timestamp
    that decodes to 1970 or later, every reference time from 1970 on within
    2^52 seconds of the epoch and every window of 0 to 2^53 seconds (where
    [difftime] accepts its arguments and the doubles hold the operands
    exactly), the record matches iff
    [referenceTime - decode(visitTimestamp) <= windowDuration]; in
    particular a record whose decoded visit time lies after the reference
    time matches. *)
Theorem in_window_single_sided (currentTime timeRangeInSeconds : time_t) (r : Row) :
  plausible_time currentTime -> 0 <= currentTime ->
  Int64.in_range (row_time r) -> 0 <= ConvertWebKitToUnixTime (row_time r) ->
  0 <= timeRangeInSeconds <= 2 ^ 53 ->
  (in_window currentTime timeRangeInSeconds r = true
   <-> currentTime - ConvertWebKitToUnixTime (row_time r) <= timeRangeInSeconds)
  /\ (currentTime < ConvertWebKitToUnixTime (row_time r) ->
      in_window currentTime timeRangeInSeconds r = true).
Proof.
  intros Hc Hc0 Ht Hv Hr. rewrite in_window_le by assumption.
  split.
  - apply Z.leb_le.
  - intros Hfuture. apply Z.leb_le. lia.
Qed.

Lemma in_window_single_sided_witness :
  in_window 1704067800 600
    {| row_url := Some "https://example.com"%string;
       row_time := 13348540800000000 + 86400000000 |} = true.
Proof.
  apply (in_window_single_sided 1704067800 600
           {| row_url := Some "https://example.com"%string;
              row_time := 13348540800000000 + 86400000000 |});
    cbn [row_time]; try solve_range.
  - vm_compute. discriminate.
  - vm_compute. reflexivity.
Defined.

(** Two records on which the test is not the comparison of C4.  A visit
    stamped 0 (the year 1601) decodes to a negative time, [difftime] returns
    0, and the record passes a window of 600 seconds.  A difference of
    2^54 + 1 seconds is rounded to 2^54 and passes a window of 2^54. *)
Lemma in_window_single_sided_counterexample :
  (in_window 1704067800 600
     {| row_url := Some "https://example.com"%string; row_time := 0 |} = true
   /\ ~ 1704067800 - ConvertWebKitToUnixTime 0 <= 600)
  /\ (in_window (2 ^ 54 + 1) (2 ^ 54)
        {| row_url := Some "https://example.com"%string;
           row_time := 11644473600000000 |} = true
      /\ ~ 2 ^ 54 + 1 - ConvertWebKitToUnixTime 11644473600000000 <= 2 ^ 54).
Proof.
  split; split; try (vm_compute; reflexivity).
  - vm_compute. intros H. apply H. reflexivity.
  - vm_compute. intros H. apply H. reflexivity.
Qed.

(** Stepping one microsecond back reaches an earlier second exactly at the
    edges of the truncating division. *)
Lemma decode_pred webkitTime :
  Int64.in_range webkitTime -> Int64.in_range (webkitTime - 1) ->
  let crosses := (0 < webkitTime /\ Z.rem webkitTime 1000000 = 0)
                 \/ (webkitTime <= 0 /\ Z.rem webkitTime 1000000 = -999999) in
  (crosses -> ConvertWebKitToUnixTime (webkitTime - 1)
              = ConvertWebKitToUnixTime webkitTime - 1)
  /\ (~ crosses -> ConvertWebKitToUnixTime (webkitTime - 1)
                   = ConvertWebKitToUnixTime webkitTime).
Proof.
  intros H H1 crosses. subst crosses.
  rewrite !ConvertWebKitToUnixTime_eq by assumption.
  pose proof (Z.quot_rem' webkitTime 1000000) as Hq.
  pose proof (Z.quot_rem' (webkitTime - 1) 1000000) as Hq1.
  destruct (Z_le_gt_dec webkitTime 0) as [Hz | Hz].
  - pose proof (Z.rem_bound_pos_neg webkitTime 1000000 ltac:(lia) ltac:(lia)).
    pose proof (Z.rem_bound_pos_neg (webkitTime - 1) 1000000 ltac:(lia) ltac:(lia)).
    split; intros Hc; lia.
  - pose proof (Z.rem_bound_pos webkitTime 1000000 ltac:(lia) ltac:(lia)).
    pose proof (Z.rem_bound_pos (webkitTime - 1) 1000000 ltac:(lia) ltac:(lia)).
    split; intros Hc; lia.
Qed.

(** A timestamp that decodes to 1970 or later is positive. *)
Lemma decode_nonneg_positive webkitTime :
  Int64.in_range webkitTime -> 0 <= ConvertWebKitToUnixTime webkitTime ->
  11644473600000000 <= webkitTime.
Proof.
  intros H Hv. rewrite ConvertWebKitToUnixTime_eq in Hv by assumption.
  pose proof (Z.quot_rem' webkitTime 1000000) as Hq.
  destruct (Z_le_gt_dec 0 webkitTime) as [Hz | Hz].
  - pose proof (Z.rem_bound_pos webkitTime 1000000 Hz ltac:(lia)). lia.
  - pose proof (Z.rem_bound_pos_neg webkitTime 1000000 ltac:(lia) ltac:(lia)). lia.
Qed.

(** C3, as the code has it. For a reference time from 1970 on and records
    that decode to 1970 or later, a record with
    [referenceTime - decode(ts) = windowDuration] is included.  The record
    one microsecond older is excluded exactly when that microsecond crosses
    into the previous whole second ([ts] a multiple of 1000000); otherwise
    it decodes to the same second and is included as well. *)
Theorem window_boundary (currentTime timeRangeInSeconds webkitTime : Z) :
  plausible_time currentTime -> 0 <= currentTime ->
  Int64.in_range webkitTime -> Int64.in_range (webkitTime - 1) ->
  0 <= ConvertWebKitToUnixTime (webkitTime - 1) ->
  0 <= timeRangeInSeconds <= 2 ^ 53 ->
  currentTime - ConvertWebKitToUnixTime webkitTime = timeRangeInSeconds ->
  within_range currentTime timeRangeInSeconds (ConvertWebKitToUnixTime webkitTime) = true
  /\ (Z.rem webkitTime 1000000 = 0 ->
      within_range currentTime timeRangeInSeconds
        (ConvertWebKitToUnixTime (webkitTime - 1)) = false)
  /\ (Z.rem webkitTime 1000000 <> 0 ->
      within_range currentTime timeRangeInSeconds
        (ConvertWebKitToUnixTime (webkitTime - 1)) = true).
Proof.
  intros Hc Hc0 H H1 Hv1 Hr Heq.
  pose proof (decode_nonneg_positive (webkitTime - 1) H1 Hv1) as Hpos.
  destruct (decode_pred webkitTime H H1) as [Hyes Hno]. cbv zeta in Hyes, Hno.
  assert (Hv : 0 <= ConvertWebKitToUnixTime webkitTime).
  { destruct (Z.eq_dec (Z.rem webkitTime 1000000) 0) as [Hrem | Hrem].
    - rewrite Hyes in Hv1 by (left; lia). lia.
    - rewrite Hno in Hv1 by (intros [[_ Hx] | [Hx _]]; [congruence | lia]).
      assumption. }
  pose proof (plausible_difference currentTime webkitTime Hc H) as Hd.
  pose proof (plausible_difference currentTime (webkitTime - 1) Hc H1) as Hd1.
  pose proof (window_exact timeRangeInSeconds Hr) as Hw.
  rewrite !within_range_exact by assumption.
  split; [apply Z.leb_le; lia |].
  split; intros Hcase.
  - rewrite Hyes by (left; lia). apply Z.leb_gt. lia.
  - rewrite Hno by (intros [[_ Hx] | [Hx _]]; [congruence | lia]).
    apply Z.leb_le. lia.
Qed.

Lemma window_boundary_witness :
  within_range 1704067800 600 (ConvertWebKitToUnixTime 13348540800000000) = true
  /\ within_range 1704067800 600 (ConvertWebKitToUnixTime (13348540800000000 - 1)) = false.
Proof.
  destruct (window_boundary 1704067800 600 13348540800000000) as (Hin & Hout & _);
    try solve_range.
  - vm_compute. discriminate.
  - vm_compute. reflexivity.
  - split; [exact Hin |]. apply Hout. reflexivity.
Defined.

(** The boundary record of C3 with a timestamp inside a second: the record
    one microsecond older is printed too. *)
Lemma window_boundary_counterexample :
  1704067800 - ConvertWebKitToUnixTime 13348540800000001 = 600
  /\ within_range 1704067800 600 (ConvertWebKitToUnixTime 13348540800000001) = true
  /\ within_range 1704067800 600
       (ConvertWebKitToUnixTime (13348540800000001 - 1)) <> false.
Proof. vm_compute. repeat split; congruence. Qed.

(** The argument check of [difftime] at work.  At reference time 600 the
    record one microsecond before 1970 decodes to -1 and passes a window of
    600 seconds; at reference time 1704067800 the visit time -1 passes a
    window of 600 seconds and the later visit time 0 does not; of two rows,
    one stamped in 2023 and one stamped 0, only the second is printed. *)
Example difftime_rejects_negative_times :
  within_range 600 600 (ConvertWebKitToUnixTime (11644473600000000 - 1)) = true
  /\ within_range 1704067800 600 (-1) = true
  /\ within_range 1704067800 600 0 = false
  /\ printed Sample.env 1704067800 600
       [ {| row_url := Some "https://example.com"%string;
            row_time := 13348540000000000 |};
         {| row_url := Some "https://example.org"%string; row_time := 0 |} ]
     = [L "URL: https://example.org, Visit Time (UTC): Invalid time" ++ newline].
Proof. vm_compute. repeat split; reflexivity. Qed.

(** ** C7: the time formatter *)

Lemma civil_core doe :
  0 <= doe < 146097 ->
  let yoe := (doe - doe / 1460 + doe / 36524 - doe / 146096) / 365 in
  let doy := doe - (365 * yoe + yoe / 4 - yoe / 100) in
  let mp := (5 * doy + 2) / 153 in
  let d := doy - (153 * mp + 2) / 5 + 1 in
  0 <= yoe <= 399 /\ 0 <= doy <= 365 /\ 0 <= mp <= 11 /\ 1 <= d <= 31.
Proof.
  intros H yoe doy mp d. subst d mp doy yoe.
  Z.to_euclidean_division_equations; lia.
Qed.

(** The civil date is a real date, and it is the date of that day. *)
Lemma civil_from_days_inverse days :
  let '(y, m, d) := civil_from_days days in
  days_from_civil y m d = days /\ 1 <= m <= 12 /\ 1 <= d <= 31.
Proof.
  unfold civil_from_days.
  set (z := days + 719468).
  set (era := z / 146097). set (doe := z mod 146097).
  assert (Hdoe : 0 <= doe < 146097) by (apply Z.mod_pos_bound; lia).
  assert (Hz : z = 146097 * era + doe) by (apply Z.div_mod; lia).
  pose proof (civil_core doe Hdoe) as Hcore. cbv zeta in Hcore.
  set (yoe := (doe - doe / 1460 + doe / 36524 - doe / 146096) / 365) in *.
  set (doy := doe - (365 * yoe + yoe / 4 - yoe / 100)) in *.
  set (mp := (5 * doy + 2) / 153) in *.
  set (d := doy - (153 * mp + 2) / 5 + 1) in *.
  destruct Hcore as (Hyoe & Hdoy & Hmp & Hd).
  unfold days_from_civil.
  destruct (Z.ltb_spec mp 10) as [Hlt | Hge].
  - destruct (Z.leb_spec (mp + 3) 2) as [Hle | Hgt]; [lia |].
    replace (yoe + era * 400 + 0) with (yoe + era * 400) by lia.
    rewrite Z.div_add by lia. rewrite Z.mod_add by lia.
    rewrite (Z.div_small yoe 400) by lia. rewrite (Z.mod_small yoe 400) by lia.
    destruct (Z.ltb_spec 2 (mp + 3)); [| lia].
    replace (mp + 3 - 3) with mp by lia.
    split; [| lia]. subst d doy z. lia.
  - destruct (Z.leb_spec (mp - 9) 2) as [Hle | Hgt]; [| lia].
    replace (yoe + era * 400 + 1 - 1) with (yoe + era * 400) by lia.
    rewrite Z.div_add by lia. rewrite Z.mod_add by lia.
    rewrite (Z.div_small yoe 400) by lia. rewrite (Z.mod_small yoe 400) by lia.
    destruct (Z.ltb_spec 2 (mp - 9)); [lia |].
    replace (mp - 9 + 9) with mp by lia.
    split; [| lia]. subst d doy z. lia.
Qed.

Lemma days_from_civil_before_1000 y m d :
  1 <= m <= 12 -> 1 <= d <= 31 -> y <= 999 -> days_from_civil y m d <= -354286.
Proof.
  intros Hm Hd Hy. unfold days_from_civil.
  destruct (Z.leb_spec m 2), (Z.ltb_spec 2 m); try lia.
  all: Z.to_euclidean_division_equations; lia.
Qed.

Lemma days_from_civil_after_9999 y m d :
  1 <= m <= 12 -> 1 <= d <= 31 -> 10000 <= y -> 2932897 <= days_from_civil y m d.
Proof.
  intros Hm Hd Hy. unfold days_from_civil.
  destruct (Z.leb_spec m 2), (Z.ltb_spec 2 m); try lia.
  all: Z.to_euclidean_division_equations; lia.
Qed.

(** The broken-down time denotes the instant it was computed from. *)
Lemma time_of_utc_of_time t : time_of_utc (utc_of_time t) = t.
Proof.
  unfold utc_of_time, time_of_utc.
  pose proof (civil_from_days_inverse (t / 86400)) as Hinv.
  destruct (civil_from_days (t / 86400)) as [[y m] d].
  destruct Hinv as (Hdays & _ & _). cbn [tm_year tm_mon tm_mday tm_hour tm_min tm_sec].
  replace (y - 1900 + 1900) with y by lia. replace (m - 1 + 1) with m by lia.
  rewrite Hdays. Z.to_euclidean_division_equations; lia.
Qed.

Lemma utc_of_time_valid t :
  year_1000_start <= t <= year_9999_end -> valid_tm (utc_of_time t).
Proof.
  unfold year_1000_start, year_9999_end, valid_tm, utc_of_time. intros Ht.
  pose proof (civil_from_days_inverse (t / 86400)) as Hinv.
  destruct (civil_from_days (t / 86400)) as [[y m] d].
  destruct Hinv as (Hdays & Hm & Hd). cbn [tm_year tm_mon tm_mday tm_hour tm_min tm_sec].
  assert (Hlo : -354285 <= t / 86400) by (Z.to_euclidean_division_equations; lia).
  assert (Hhi : t / 86400 <= 2932896) by (Z.to_euclidean_division_equations; lia).
  assert (Hy : 1000 <= y <= 9999).
  { split.
    - destruct (Z_le_gt_dec y 999) as [Hy | Hy]; [| lia].
      pose proof (days_from_civil_before_1000 y m d Hm Hd Hy). lia.
    - destruct (Z_le_gt_dec 10000 y) as [Hy | Hy]; [| lia].
      pose proof (days_from_civil_after_9999 y m d Hm Hd Hy). lia. }
  repeat split; try lia.
  all: Z.to_euclidean_division_equations; lia.
Qed.

Lemma is_digit_digit d : is_digit (digit d) = true.
Proof.
  unfold is_digit, digit.
  pose proof (Z.mod_pos_bound d 10 ltac:(lia)) as Hd.
  apply andb_true_intro. split; apply N.leb_le; lia.
Qed.

Lemma digit_value_digit d : digit_value (digit d) = d mod 10.
Proof.
  unfold digit_value, digit.
  pose proof (Z.mod_pos_bound d 10 ltac:(lia)). lia.
Qed.

Lemma number_of_app w c : number_of (w ++ [c]) = 10 * number_of w + digit_value c.
Proof. unfold number_of. rewrite List.fold_left_app. reflexivity. Qed.

(** A number that fits its field is printed in full. *)
Lemma number_of_decimal n z :
  0 <= z < 10 ^ Z.of_nat n -> number_of (decimal n z) = z.
Proof.
  revert z. induction n as [| n IH]; intros z Hz.
  - change (10 ^ Z.of_nat 0) with 1 in Hz. cbn. lia.
  - cbn [decimal]. rewrite number_of_app, digit_value_digit.
    rewrite Nat2Z.inj_succ, Z.pow_succ_r in Hz by lia.
    rewrite IH by (Z.to_euclidean_division_equations; lia).
    Z.to_euclidean_division_equations; lia.
Qed.

Lemma timestamp_form_wcsftime b : timestamp_form (wcsftime b) = true.
Proof.
  unfold wcsftime. cbn [decimal app L List.map list_ascii_of_string].
  cbn [timestamp_form forallb]. rewrite !is_digit_digit. reflexivity.
Qed.

Lemma read_timestamp_wcsftime b : valid_tm b -> read_timestamp (wcsftime b) = b.
Proof.
  unfold valid_tm. intros (Hy & Hmo & Hd & Hh & Hmi & Hs).
  destruct b as [sec mi hour mday mon year].
  cbn [tm_year tm_mon tm_mday tm_hour tm_min tm_sec] in *.
  unfold wcsftime, read_timestamp.
  cbn [tm_year tm_mon tm_mday tm_hour tm_min tm_sec].
  cbn [decimal app L List.map list_ascii_of_string take drop].
  change [digit ((year + 1900) / 10 / 10 / 10); digit ((year + 1900) / 10 / 10);
          digit ((year + 1900) / 10); digit (year + 1900)]
    with (decimal 4 (year + 1900)).
  change [digit ((mon + 1) / 10); digit (mon + 1)] with (decimal 2 (mon + 1)).
  change [digit (mday / 10); digit mday] with (decimal 2 mday).
  change [digit (hour / 10); digit hour] with (decimal 2 hour).
  change [digit (mi / 10); digit mi] with (decimal 2 mi).
  change [digit (sec / 10); digit sec] with (decimal 2 sec).
  rewrite !number_of_decimal
    by (first [change (10 ^ Z.of_nat 4) with 10000 | change (10 ^ Z.of_nat 2) with 100]; lia).
  f_equal; lia.
Qed.

Lemma gmtime_s_Some E unixTime timeInfo :
  gmtime_s E unixTime = Some timeInfo ->
  gmtime_min E <= unixTime <= gmtime_max E /\ timeInfo = utc_of_time unixTime.
Proof.
  unfold gmtime_s.
  destruct (Z.leb_spec (gmtime_min E) unixTime), (Z.leb_spec unixTime (gmtime_max E));
    cbn; intros Heq; inversion Heq; subst; split; (lia || reflexivity).
Qed.

(** A row with a URL never stops the loop, whatever its time is. *)
Lemma process_row_returns E currentTime timeRangeInSeconds r s :
  row_url r <> None ->
  returned (process_row E currentTime timeRangeInSeconds r s) = true.
Proof.
  intros Hurl. unfold process_row, sqlite3_column_text.
  destruct (within_range _ _ _); [| reflexivity].
  destruct (row_url r) as [u |]; [reflexivity | congruence].
Qed.

(** C7. On a platform whose [gmtime_s] accepts only times with a
    four-digit year, the formatter is total and has two results.  When the
    time is accepted, the result has the shape [YYYY-MM-DD HH:MM:SS], its
    fields are calendar fields, and read back as UTC they denote exactly the
    input second.  When the time is rejected, the result is the sentinel
    [Invalid time].  In both cases the row being printed is printed and the
    loop goes on. *)
Theorem FormatUnixTimeToUTC_total (E : Env) (unixTime : time_t) :
  year_1000_start <= gmtime_min E -> gmtime_max E <= year_9999_end ->
  match gmtime_s E unixTime with
  | Some timeInfo =>
      timestamp_form (FormatUnixTimeToUTC E unixTime) = true
      /\ valid_tm (read_timestamp (FormatUnixTimeToUTC E unixTime))
      /\ time_of_utc (read_timestamp (FormatUnixTimeToUTC E unixTime)) = unixTime
  | None => FormatUnixTimeToUTC E unixTime = L "Invalid time"
  end
  /\ forall currentTime timeRangeInSeconds url webkitTime s,
       ConvertWebKitToUnixTime webkitTime = unixTime ->
       within_range currentTime timeRangeInSeconds unixTime = true ->
       process_row E currentTime timeRangeInSeconds
         {| row_url := Some url; row_time := webkitTime |} s
       = Returned tt
           (add_out (entry_line (ConvertUtf8ToWide E url)
                                (FormatUnixTimeToUTC E unixTime)) s).
Proof.
  intros Hmin Hmax. split.
  - unfold FormatUnixTimeToUTC.
    destruct (gmtime_s E unixTime) as [timeInfo |] eqn:Hgm; [| reflexivity].
    apply gmtime_s_Some in Hgm. destruct Hgm as [Hrange ->].
    assert (Hvalid : valid_tm (utc_of_time unixTime))
      by (apply utc_of_time_valid; lia).
    rewrite read_timestamp_wcsftime by assumption.
    split; [apply timestamp_form_wcsftime |].
    split; [assumption | apply time_of_utc_of_time].
  - intros currentTime timeRangeInSeconds url webkitTime s Hdec Hin.
    unfold process_row, sqlite3_column_text, sqlite3_column_int64.
    cbn [row_url row_time]. rewrite Hdec, Hin. reflexivity.
Qed.

Lemma FormatUnixTimeToUTC_total_witness :
  FormatUnixTimeToUTC Sample.env 1704067740 = L "2024-01-01 00:09:00"
  /\ timestamp_form (FormatUnixTimeToUTC Sample.env 1704067740) = true
  /\ FormatUnixTimeToUTC Sample.env (2 ^ 62 / 1000000 - 11644473600) = L "Invalid time".
Proof.
  assert (Hmin : year_1000_start <= gmtime_min Sample.env) by (vm_compute; discriminate).
  assert (Hmax : gmtime_max Sample.env <= year_9999_end) by (vm_compute; discriminate).
  split; [vm_compute; reflexivity |]. split.
  - exact (proj1 (proj1 (FormatUnixTimeToUTC_total Sample.env 1704067740 Hmin Hmax))).
  - exact (proj1 (FormatUnixTimeToUTC_total Sample.env
                    (2 ^ 62 / 1000000 - 11644473600) Hmin Hmax)).
Defined.

(** ** The extraction pipeline *)

Lemma bind_unfold {A B} (m : M A) (f : A -> M B) s :
  (m ≫= f) s = match m s with
               | Returned a s' => f a s'
               | Crashed s' => Crashed s'
               end.
Proof. reflexivity. Qed.

Lemma add_outs_nil s : add_outs [] s = s.
Proof. destruct s. unfold add_outs. cbn. rewrite app_nil_r. reflexivity. Qed.

Lemma add_out_outs text lines s :
  add_outs lines (add_out text s) = add_outs (text :: lines) s.
Proof. unfold add_outs, add_out. cbn. rewrite <- app_assoc. reflexivity. Qed.

(** ** The row loop *)

Lemma printed_skip E currentTime timeRangeInSeconds r stmt :
  in_window currentTime timeRangeInSeconds r = false ->
  printed E currentTime timeRangeInSeconds (r :: stmt)
  = printed E currentTime timeRangeInSeconds stmt.
Proof.
  intros Hin. unfold printed. cbn [reached]. unfold null_in_window.
  rewrite Hin. cbn [andb List.filter]. rewrite Hin. reflexivity.
Qed.

Lemma printed_entry E currentTime timeRangeInSeconds r u stmt :
  in_window currentTime timeRangeInSeconds r = true -> row_url r = Some u ->
  printed E currentTime timeRangeInSeconds (r :: stmt)
  = entry_line (ConvertUtf8ToWide E u)
               (FormatUnixTimeToUTC E (ConvertWebKitToUnixTime (row_time r)))
    :: printed E currentTime timeRangeInSeconds stmt.
Proof.
  intros Hin Hurl. unfold printed. cbn [reached]. unfold null_in_window.
  rewrite Hin, Hurl. cbn [andb List.filter]. rewrite Hin. cbn [List.map].
  unfold line_of at 1. rewrite Hurl. reflexivity.
Qed.

Lemma printed_null E currentTime timeRangeInSeconds r stmt :
  null_in_window currentTime timeRangeInSeconds r = true ->
  printed E currentTime timeRangeInSeconds (r :: stmt) = [].
Proof. intros Hnull. unfold printed. cbn [reached]. rewrite Hnull. reflexivity. Qed.

Lemma step_rows_spec E currentTime timeRangeInSeconds stmt s :
  step_rows E currentTime timeRangeInSeconds stmt s
  = if existsb (null_in_window currentTime timeRangeInSeconds) stmt
    then Crashed (add_outs (printed E currentTime timeRangeInSeconds stmt) s)
    else Returned tt (add_outs (printed E currentTime timeRangeInSeconds stmt) s).
Proof.
  revert s. induction stmt as [| r stmt IH]; intros s.
  - cbn. rewrite add_outs_nil. reflexivity.
  - cbn [step_rows existsb]. rewrite bind_unfold.
    unfold process_row, sqlite3_column_text, sqlite3_column_int64.
    change (within_range currentTime timeRangeInSeconds
              (ConvertWebKitToUnixTime (row_time r)))
      with (in_window currentTime timeRangeInSeconds r).
    destruct (in_window currentTime timeRangeInSeconds r) eqn:Hin.
    + destruct (row_url r) as [u |] eqn:Hurl.
      * assert (Hnull : null_in_window currentTime timeRangeInSeconds r = false)
          by (unfold null_in_window; rewrite Hin, Hurl; reflexivity).
        rewrite Hnull. cbn [orb]. rewrite bind_unfold. cbn [std_string wprintf].
        rewrite IH, add_out_outs, (printed_entry E _ _ r u) by assumption.
        reflexivity.
      * assert (Hnull : null_in_window currentTime timeRangeInSeconds r = true)
          by (unfold null_in_window; rewrite Hin, Hurl; reflexivity).
        rewrite Hnull, printed_null by assumption. cbn. rewrite add_outs_nil.
        reflexivity.
    + assert (Hnull : null_in_window currentTime timeRangeInSeconds r = false)
        by (unfold null_in_window; rewrite Hin; reflexivity).
      rewrite Hnull, printed_skip by assumption. cbn [orb]. apply IH.
Qed.

(** ** Temporary files *)

Lemma find_unique_fresh (fuel : nat) (dir : list N) (prefix : string) (n : N)
    (files : gmap (list N) File) (k : N) :
  find_unique fuel dir prefix n files = Some k ->
  files !! temp_file_name dir prefix k = None.
Proof.
  revert n. induction fuel as [| fuel IH]; intros n; cbn [find_unique].
  - discriminate.
  - destruct (files !! temp_file_name dir prefix n) eqn:Hn.
    + apply IH.
    + intros Heq. inversion Heq. subst. assumption.
Qed.

Lemma GetTempFileNameW_cases E dir prefix s :
  GetTempFileNameW E dir prefix s = Returned None s
  \/ exists t, fs s !! t = None
               /\ GetTempFileNameW E dir prefix s = Returned (Some t) (created E t s).
Proof.
  unfold GetTempFileNameW.
  destruct (temp_dir_usable E); [| left; reflexivity].
  destruct (find_unique _ _ _ _ _) as [k |] eqn:Hk; [| left; reflexivity].
  right. exists (temp_file_name dir prefix k). split; [| reflexivity].
  eapply find_unique_fresh. exact Hk.
Qed.

Lemma CopyDatabaseToTemp_cases E dbPath s :
  CopyDatabaseToTemp E dbPath s = Returned (false, []) s
  \/ (exists t what,
        fs s !! t = None
        /\ CopyDatabaseToTemp E dbPath s
           = Returned (false, t) (add_out (copy_diagnostic E what) (created E t s)))
  \/ (exists t f,
        fs s !! t = None /\ fs s !! dbPath = Some f /\ dbPath <> t
        /\ CopyDatabaseToTemp E dbPath s = Returned (true, t) (copied E dbPath t f s)).
Proof.
  unfold CopyDatabaseToTemp.
  destruct (GetTempPathW E) as [tempPath |]; [| left; reflexivity].
  rewrite bind_unfold.
  destruct (GetTempFileNameW_cases E tempPath "dbcopy" s) as [-> | (t & Hfresh & ->)];
    [left; reflexivity |].
  right. rewrite bind_unfold. unfold copy_file.
  change (fs (created E t s)) with (<[t := empty_file E]> (fs s)).
  destruct (decide (dbPath = t)) as [-> | Hne].
  - rewrite lookup_insert_eq. rewrite bool_decide_eq_true_2 by reflexivity.
    left. eexists t, _. split; [assumption | reflexivity].
  - rewrite lookup_insert_ne by congruence.
    destruct (fs s !! dbPath) as [f |] eqn:Hsrc.
    + rewrite bool_decide_eq_false_2 by assumption.
      destruct (copy_error E dbPath) as [what |].
      * left. eexists t, _. split; [assumption | reflexivity].
      * right. exists t, f. repeat split; assumption || reflexivity.
    + left. eexists t, _. split; [assumption | reflexivity].
Qed.

Lemma prepare_on_copy E p t f s :
  sqlite3_prepare_v2 t (opened E p t f s)
  = Returned match store_rows f with
             | Some stmt => SQLITE_OK stmt
             | None =>
                 SQLITE_ERROR
                   match file_data f with
                   | Raw [] => "no such table: urls"
                   | Raw (_ :: _) => "file is not a database"
                   | SQLite d =>
                       match history_query d with
                       | SQLITE_ERROR errmsg => errmsg
                       | SQLITE_OK _ => ""
                       end
                   end
             end
             (opened E p t f s).
Proof.
  unfold sqlite3_prepare_v2.
  change (fs (opened E p t f s)) with (<[t := f]> (<[t := empty_file E]> (fs s))).
  rewrite lookup_insert_eq. unfold store_rows.
  destruct (file_data f) as [[| b bytes] | d]; try reflexivity.
  destruct (history_query d); reflexivity.
Qed.

(** Every run of [PrintUrlsFromDatabase] follows one of the six paths. *)
Lemma PrintUrlsFromDatabase_extraction E p currentTime timeRangeInSeconds s :
  Extraction E p currentTime timeRangeInSeconds s
    (PrintUrlsFromDatabase E p currentTime timeRangeInSeconds s)
    (failing_stage E p s).
Proof.
  unfold PrintUrlsFromDatabase, failing_stage. rewrite bind_unfold.
  destruct (CopyDatabaseToTemp_cases E p s)
    as [-> | [(t & what & Hfresh & ->) | (t & f & Hfresh & Hsrc & Hne & ->)]].
  - cbn [negb]. apply ex_no_temp.
  - cbn [negb]. apply ex_copy_failed. assumption.
  - cbn [negb]. rewrite bind_unfold. unfold sqlite3_open16.
    destruct (open_error E t) eqn:Hopen.
    + apply ex_open_failed; assumption.
    + rewrite bind_unfold.
      change (add_event (EvOpen t) (copied E p t f s)) with (opened E p t f s).
      rewrite prepare_on_copy.
      destruct (store_rows f) as [stmt |] eqn:Hrows.
      * rewrite bind_unfold, step_rows_spec.
        destruct (existsb _ stmt) eqn:Hnull.
        -- apply ex_crashed; assumption.
        -- apply (ex_completed E p currentTime timeRangeInSeconds s t f stmt);
             assumption.
      * apply ex_prepare_failed; assumption.
Qed.

Ltac state_simpl :=
  cbn [fs out events add_out add_outs add_event set_fs
       created copied opened final_state returned] in *.

Lemma fresh_ne (files : gmap (list N) File) (p t : list N) (f : File) :
  files !! p = Some f -> files !! t = None -> p <> t.
Proof. intros Hp Ht ->. congruence. Qed.

(** ** C9: the source store *)

(** C9. For every invocation on a source store that exists, whatever path
    the extraction takes (it completes, gives up at any stage, or dies), the
    file at the source path is afterwards the very file it was before, with
    the same content and the same modification time, and the only call the
    invocation made on the source path is the read of the copy: it is never
    created, written, removed or opened as a database. *)
Theorem source_untouched (E : Env) (p : list N) (currentTime timeRangeInSeconds : time_t)
    (s : State) (f : File) :
  fs s !! p = Some f ->
  let s' := final_state (PrintUrlsFromDatabase E p currentTime timeRangeInSeconds s) in
  fs s' !! p = Some f
  /\ exists es, events s' = events s ++ es
                /\ Forall (fun e => event_path e = p -> e = EvRead p) es.
Proof.
  intros Hsrc s'. subst s'.
  destruct (PrintUrlsFromDatabase_extraction E p currentTime timeRangeInSeconds s)
    as [| t what Hfresh | t f' Hfresh Hp Hne | t f' errmsg Hfresh Hp Hne Hrows
        | t f' stmt Hfresh Hp Hne Hrows Hnull | t f' stmt Hfresh Hp Hne Hrows Hnull];
    state_simpl.
  - split; [assumption |]. exists []. rewrite app_nil_r. split; [reflexivity | constructor].
  - pose proof (fresh_ne _ _ _ _ Hsrc Hfresh) as Hne.
    rewrite lookup_insert_ne by congruence. split; [assumption |].
    exists [EvCreate t]. split; [reflexivity |].
    repeat constructor. cbn. congruence.
  - rewrite !lookup_insert_ne by congruence. split; [assumption |].
    exists [EvCreate t; EvRead p; EvWrite t]. rewrite <- !app_assoc.
    split; [reflexivity |]. repeat constructor; cbn; congruence.
  - rewrite !lookup_insert_ne by congruence. split; [assumption |].
    exists [EvCreate t; EvRead p; EvWrite t; EvOpen t; EvClose t]. rewrite <- !app_assoc.
    split; [reflexivity |]. repeat constructor; cbn; congruence.
  - rewrite !lookup_insert_ne by congruence. split; [assumption |].
    exists [EvCreate t; EvRead p; EvWrite t; EvOpen t]. rewrite <- !app_assoc.
    split; [reflexivity |]. repeat constructor; cbn; congruence.
  - rewrite lookup_delete_ne, !lookup_insert_ne by congruence. split; [assumption |].
    exists [EvCreate t; EvRead p; EvWrite t; EvOpen t; EvClose t; EvRemove t].
    rewrite <- !app_assoc.
    split; [reflexivity |]. repeat constructor; cbn; congruence.
Qed.

(** ** Diagnostics and entries *)

Lemma copy_giveup_line_diagnostic p :
  is_diagnostic (copy_giveup_line p) = true /\ is_entry (copy_giveup_line p) = false.
Proof. split; vm_compute; reflexivity. Qed.

Lemma copy_diagnostic_diagnostic E what :
  is_diagnostic (copy_diagnostic E what) = true
  /\ is_entry (copy_diagnostic E what) = false.
Proof. split; vm_compute; reflexivity. Qed.

Lemma open_line_diagnostic t :
  is_diagnostic (open_line t) = true /\ is_entry (open_line t) = false.
Proof. split; vm_compute; reflexivity. Qed.

Lemma prepare_line_diagnostic errmsg :
  is_diagnostic (prepare_line errmsg) = true /\ is_entry (prepare_line errmsg) = false.
Proof. split; vm_compute; reflexivity. Qed.

Lemma reached_all currentTime timeRangeInSeconds stmt :
  existsb (null_in_window currentTime timeRangeInSeconds) stmt = false ->
  reached currentTime timeRangeInSeconds stmt = stmt.
Proof.
  induction stmt as [| r stmt IH]; [reflexivity |].
  cbn [existsb reached]. intros Hno. apply orb_false_elim in Hno.
  destruct Hno as [-> Hrest]. rewrite IH by assumption. reflexivity.
Qed.

(** ** C6: a failing store does not block the next one *)


(** ** C8: the order and the shape of the entries *)

Lemma Forall_sublist {A} (P : A -> Prop) (l1 l2 : list A) :
  l1 `sublist_of` l2 -> Forall P l2 -> Forall P l1.
Proof.
  induction 1 as [| x l1 l2 _ IH | x l1 l2 _ IH]; intros Hall.
  - constructor.
  - inversion Hall; subst. constructor; auto.
  - inversion Hall; subst. auto.
Qed.

Lemma StronglySorted_sublist {A} (R : A -> A -> Prop) (l1 l2 : list A) :
  l1 `sublist_of` l2 -> StronglySorted R l2 -> StronglySorted R l1.
Proof.
  induction 1 as [| x l1 l2 Hsub IH | x l1 l2 Hsub IH]; intros Hsorted.
  - constructor.
  - inversion Hsorted; subst. constructor; [auto |].
    eapply Forall_sublist; eassumption.
  - inversion Hsorted; subst. auto.
Qed.





Lemma store_rows_sorted f stmt : store_rows f = Some stmt -> StronglySorted later stmt.
Proof.
  unfold store_rows, history_query.
  destruct (file_data f) as [bytes | d]; [discriminate |].
  destruct (urls d) as [us |]; [| discriminate].
  destruct (visits d) as [vs |]; [| discriminate].
  intros Heq. inversion Heq. apply StronglySorted_merge_sort; apply _.
Qed.

Lemma c_str_no_nul w : Forall (fun c => c <> 0%N) w -> c_str w = w.
Proof.
  induction 1 as [| c w Hc _ IH]; [reflexivity |].
  cbn [c_str]. destruct (N.eqb_spec c 0); [contradiction |]. rewrite IH. reflexivity.
Qed.

Lemma digit_not_nul d : digit d <> 0%N.
Proof.
  unfold digit. pose proof (Z.mod_pos_bound d 10 ltac:(lia)). lia.
Qed.

(** The formatter has two results, and neither holds a NUL. *)
Lemma FormatUnixTimeToUTC_results E unixTime :
  (timestamp_form (FormatUnixTimeToUTC E unixTime) = true
   \/ FormatUnixTimeToUTC E unixTime = L "Invalid time")
  /\ c_str (FormatUnixTimeToUTC E unixTime) = FormatUnixTimeToUTC E unixTime.
Proof.
  unfold FormatUnixTimeToUTC. destruct (gmtime_s E unixTime) as [timeInfo |].
  - split; [left; apply timestamp_form_wcsftime |].
    apply c_str_no_nul. unfold wcsftime.
    cbn [decimal app L List.map list_ascii_of_string].
    repeat constructor; try apply digit_not_nul; vm_compute; discriminate.
  - split; [right; reflexivity | vm_compute; reflexivity].
Qed.







(** The two visits of the sample store, most recent first; the visit made
    exactly [timeRangeInSeconds] before the reference time is printed. *)
Example two_visits_printed :
  out (final_state (PrintUrlsFromDatabase Sample.env Sample.chrome_path 1704067800 600
                      Sample.world_chrome_only))
  = [L "URL: https://example.com, Visit Time (UTC): 2024-01-01 00:09:00" ++ newline;
     L "URL: https://example.org, Visit Time (UTC): 2024-01-01 00:00:00" ++ newline].
Proof. vm_compute. reflexivity. Qed.

(** ** C10: the exit status *)





Example no_profile_exit_status :
  wmain Sample.env_no_profile Sample.world_chrome_only
  = Returned 1 (add_out (L "Failed to get user profile path." ++ newline)
                  Sample.world_chrome_only).
Proof. reflexivity. Qed.


Lemma source_untouched_witness :
  fs (final_state (PrintUrlsFromDatabase Sample.env Sample.chrome_path 1704067800 600
                     Sample.world_chrome_only)) !! Sample.chrome_path
  = Some (Sample.file_of (SQLite Sample.two_visits)).
Proof.
  apply (source_untouched Sample.env Sample.chrome_path 1704067800 600
           Sample.world_chrome_only (Sample.file_of (SQLite Sample.two_visits))).
  vm_compute. reflexivity.
Defined.




(** The whole program on a world where Chrome's store is not a database:
    the diagnostic for Chrome, then both visits of Edge's store. *)
Example edge_printed_after_chrome_failure :
  exists s',
    wmain Sample.env Sample.world_chrome_garbage = Returned 0 s'
    /\ out s'
       = [L "Checking Chrome browsing history:" ++ newline;
          prepare_line "file is not a database";
          newline ++ L "Checking Edge browsing history:" ++ newline;
          L "URL: https://example.com, Visit Time (UTC): 2024-01-01 00:09:00" ++ newline;
          L "URL: https://example.org, Visit Time (UTC): 2024-01-01 00:00:00" ++ newline].
Proof. eexists. split; vm_compute; reflexivity. Qed.

(** ** C1: what is left in the temporary directory *)

(** An extraction that gives up after the copy leaves the copy behind. *)
Lemma temp_file_survives_failure E p currentTime timeRangeInSeconds s stage :
  failing_stage E p s = Some stage -> stage <> CopyStage ->
  exists t f,
    fs s !! t = None /\ fs s !! p = Some f
    /\ fs (final_state (PrintUrlsFromDatabase E p currentTime timeRangeInSeconds s)) !! t
       = Some f.
Proof.
  intros Hstage Hlate.
  destruct (PrintUrlsFromDatabase_extraction E p currentTime timeRangeInSeconds s)
    as [| t what Hfresh | t f' Hfresh Hp Hne | t f' errmsg Hfresh Hp Hne Hrows
        | t f' stmt Hfresh Hp Hne Hrows Hnull | t f' stmt Hfresh Hp Hne Hrows Hnull];
    try discriminate Hstage; try congruence.
  all: exists t, f'; state_simpl; rewrite lookup_insert_eq; auto.
Qed.

(** An extraction that runs to its end removes the copy: the file system is
    the one it started in. *)
Lemma temp_file_removed_at_end E p currentTime timeRangeInSeconds s s' :
  failing_stage E p s = None ->
  PrintUrlsFromDatabase E p currentTime timeRangeInSeconds s = Returned tt s' ->
  fs s' = fs s.
Proof.
  intros Hvalid Hrun.
  destruct (PrintUrlsFromDatabase_extraction E p currentTime timeRangeInSeconds s)
    as [| t what Hfresh | t f' Hfresh Hp Hne | t f' errmsg Hfresh Hp Hne Hrows
        | t f' stmt Hfresh Hp Hne Hrows Hnull | t f' stmt Hfresh Hp Hne Hrows Hnull];
    try discriminate Hvalid; try discriminate Hrun.
  inversion Hrun. state_simpl.
  rewrite insert_insert_eq. apply delete_insert_id. assumption.
Qed.

(** The same residue when SQLite cannot open the copy, and an empty file
    when the source does not exist. *)
Example open_failure_leaves_copy :
  let o := PrintUrlsFromDatabase Sample.env_no_open Sample.chrome_path 1704067800 600
             Sample.world_chrome_only in
  out (final_state o) = [open_line Sample.first_temp]
  /\ fs (final_state o) !! Sample.first_temp
     = Some (Sample.file_of (SQLite Sample.two_visits)).
Proof. vm_compute. split; reflexivity. Qed.

Example copy_failure_leaves_empty_file :
  let o := PrintUrlsFromDatabase Sample.env Sample.edge_path 1704067800 600
             Sample.world_chrome_only in
  out (final_state o)
  = [copy_diagnostic Sample.env "copy_file: no such file or directory";
     copy_giveup_line Sample.edge_path]
  /\ fs (final_state o) !! Sample.first_temp = Some (empty_file Sample.env).
Proof. vm_compute. split; reflexivity. Qed.

(** C1, at a store file that is not a database. The copy succeeds, the
    prepare fails, the call returns after one diagnostic, and the temporary
    file, which did not exist before the call, exists after it and holds the
    copy. *)
Theorem temp_file_left_behind :
  let o := PrintUrlsFromDatabase Sample.env Sample.chrome_path 1704067800 600
             Sample.world_chrome_garbage in
  failing_stage Sample.env Sample.chrome_path Sample.world_chrome_garbage
  = Some PrepareStage
  /\ returned o = true
  /\ out (final_state o) = [prepare_line "file is not a database"]
  /\ fs Sample.world_chrome_garbage !! Sample.first_temp = None
  /\ fs (final_state o) !! Sample.first_temp
     = Some (Sample.file_of (Raw [1; 2; 3]%N)).
Proof. vm_compute. repeat split; reflexivity. Qed.

(** C2, at a store with ten rows inside the window of which the fifth most
    recent has a NULL URL. The copy, the open and the prepare succeed; the
    run does not return: it dies at the NULL row after four entries. *)
Theorem null_url_row_crashes :
  let o := PrintUrlsFromDatabase Sample.env Sample.chrome_path 1704067800 600
             Sample.world_ten in
  (exists stmt,
     store_rows (Sample.file_of (SQLite Sample.ten_visits)) = Some stmt
     /\ length stmt = 10%nat
     /\ forallb (in_window 1704067800 600) stmt = true
     /\ length (List.filter (fun r => bool_decide (row_url r = None)) stmt) = 1%nat)
  /\ failing_stage Sample.env Sample.chrome_path Sample.world_ten = None
  /\ returned o = false
  /\ length (List.filter is_entry (out (final_state o))) = 4%nat.
Proof.
  split; [eexists; split; [vm_compute; reflexivity |]; vm_compute; repeat split |].
  vm_compute. repeat split; reflexivity.
Qed.

(** * Further properties of the code *)

(** ** More on the doubles *)

(** Rounding of a magnitude of at least 2^53, with its unit in the last
    place [u] spelled out. *)
Lemma double_of_Z_large a :
  2 ^ 53 <= a ->
  let e := Z.log2 a - 52 in
  let u := 2 ^ e in
  1 <= e /\ 2 <= u /\ u = 2 * (u / 2)
  /\ 2 ^ 52 * u <= a < 2 ^ 53 * u
  /\ double_of_Z a
     = (if a mod u <? u / 2 then a / u
        else if u / 2 <? a mod u then a / u + 1
        else if Z.even (a / u) then a / u else a / u + 1) * u.
Proof.
  intros Ha e u. unfold double_of_Z.
  assert (Hpos : 0 < a) by lia.
  rewrite (Z.abs_eq a) by lia.
  destruct (Z.ltb_spec a (2 ^ 53)) as [Hlt | _]; [lia |].
  rewrite (Z.sgn_pos a) by lia. rewrite Z.mul_1_l.
  pose proof (Z.log2_spec a Hpos) as [Hlo Hhi].
  assert (Hlog : 53 <= Z.log2 a) by (apply Z.log2_le_pow2; lia).
  fold e. fold u.
  assert (He : 1 <= e) by (subst e; lia).
  assert (Hu : 2 <= u).
  { subst u. change 2 with (2 ^ 1) at 1. apply Z.pow_le_mono_r; lia. }
  assert (Hsplit : 2 ^ Z.log2 a = 2 ^ 52 * u).
  { subst u. rewrite <- Z.pow_add_r by lia. f_equal. subst e. lia. }
  assert (Hsplit' : 2 ^ Z.succ (Z.log2 a) = 2 ^ 53 * u).
  { subst u. rewrite <- Z.pow_add_r by lia. f_equal. subst e. lia. }
  assert (Hhalf : u = 2 * (u / 2)).
  { subst u. replace e with (1 + (e - 1)) at 1 2 by lia.
    rewrite Z.pow_add_r by lia. change (2 ^ 1) with 2.
    rewrite (Z.mul_comm 2), Z.div_mul by lia. lia. }
  repeat split; try lia.
Qed.

Lemma double_of_Z_opp z : double_of_Z (- z) = - double_of_Z z.
Proof.
  unfold double_of_Z. rewrite Z.abs_opp, Z.sgn_opp.
  destruct (Z.abs z <? 2 ^ 53); [reflexivity | lia].
Qed.

Lemma double_of_Z_small z : Z.abs z < 2 ^ 53 -> double_of_Z z = z.
Proof.
  intros H. unfold double_of_Z.
  destruct (Z.ltb_spec (Z.abs z) (2 ^ 53)); [reflexivity | lia].
Qed.

(** A rounded magnitude stays between the two multiples of [u] around it. *)
Lemma double_of_Z_large_bounds a :
  2 ^ 53 <= a ->
  let u := 2 ^ (Z.log2 a - 52) in
  a / u * u <= double_of_Z a <= (a / u + 1) * u
  /\ 2 ^ 52 * u <= double_of_Z a <= 2 ^ 53 * u.
Proof.
  intros Ha u.
  destruct (double_of_Z_large a Ha) as (He & Hu & Hhalf & Hrange & ->).
  fold u in Hu, Hhalf, Hrange |- *.
  pose proof (Z.div_mod a u ltac:(lia)) as Hdm.
  pose proof (Z.mod_pos_bound a u ltac:(lia)) as Hr.
  assert (Hq : 2 ^ 52 <= a / u < 2 ^ 53) by nia.
  destruct (a mod u <? u / 2); [nia |].
  destruct (u / 2 <? a mod u); [nia |].
  destruct (Z.even (a / u)); nia.
Qed.

Lemma double_of_Z_mono_nonneg a b : 0 <= a <= b -> double_of_Z a <= double_of_Z b.
Proof.
  intros [Ha Hab].
  destruct (Z_lt_le_dec b (2 ^ 53)) as [Hb | Hb].
  { rewrite !double_of_Z_small by lia. lia. }
  pose proof (double_of_Z_large_bounds b Hb) as [Hb1 Hb2].
  pose proof (double_of_Z_large b Hb) as (Heb & Hub & Hhb & Hrb & Hvb).
  cbv zeta in *.
  set (eb := Z.log2 b - 52) in *. set (ub := 2 ^ eb) in *.
  destruct (Z_lt_le_dec a (2 ^ 53)) as [Ha53 | Ha53].
  { rewrite double_of_Z_small by lia. nia. }
  pose proof (double_of_Z_large_bounds a Ha53) as [Ha1 Ha2].
  pose proof (double_of_Z_large a Ha53) as (Hea & Hua & Hha & Hra & Hva).
  cbv zeta in *.
  set (ea := Z.log2 a - 52) in *. set (ua := 2 ^ ea) in *.
  assert (Hle : ea <= eb).
  { subst ea eb. pose proof (Z.log2_le_mono a b Hab). lia. }
  destruct (Z_lt_le_dec ea eb) as [Hlt | Hge].
  - assert (2 * ua <= ub).
    { subst ua ub. change 2 with (2 ^ 1) at 1. rewrite <- Z.pow_add_r by lia.
      apply Z.pow_le_mono_r; lia. }
    nia.
  - assert (Heq : ea = eb) by lia.
    assert (Hu : ua = ub) by (subst ua ub; congruence).
    rewrite Hu in *. clear Hu Heq Hle Hge.
    pose proof (Z.div_mod a ub ltac:(lia)) as Hda.
    pose proof (Z.div_mod b ub ltac:(lia)) as Hdb.
    pose proof (Z.mod_pos_bound a ub ltac:(lia)) as Hma.
    pose proof (Z.mod_pos_bound b ub ltac:(lia)) as Hmb.
    assert (Hqq : a / ub <= b / ub) by (apply Z.div_le_mono; lia).
    destruct (Z_lt_le_dec (a / ub) (b / ub)) as [Hq | Hq]; [nia |].
    assert (Hqe : a / ub = b / ub) by lia.
    assert (Hrr : a mod ub <= b mod ub) by nia.
    rewrite Hva, Hvb, Hqe.
    apply Z.mul_le_mono_nonneg_r; [lia |].
    destruct (Z.ltb_spec (a mod ub) (ub / 2)), (Z.ltb_spec (b mod ub) (ub / 2)),
      (Z.ltb_spec (ub / 2) (a mod ub)), (Z.ltb_spec (ub / 2) (b mod ub)),
      (Z.even (b / ub)); lia.
Qed.

Lemma double_of_Z_nonneg a : 0 <= a -> 0 <= double_of_Z a.
Proof.
  intros Ha. pose proof (double_of_Z_mono_nonneg 0 a ltac:(lia)) as H.
  rewrite (double_of_Z_small 0) in H by (cbn; lia). exact H.
Qed.

(** Conversion to double never swaps two integers. *)
Lemma double_of_Z_mono a b : a <= b -> double_of_Z a <= double_of_Z b.
Proof.
  intros Hab.
  destruct (Z_le_gt_dec 0 a) as [Ha | Ha].
  - apply double_of_Z_mono_nonneg. lia.
  - destruct (Z_le_gt_dec 0 b) as [Hb | Hb].
    + pose proof (double_of_Z_nonneg b Hb).
      pose proof (double_of_Z_nonneg (- a) ltac:(lia)) as Hn.
      rewrite double_of_Z_opp in Hn. lia.
    + pose proof (double_of_Z_mono_nonneg (- b) (- a) ltac:(lia)) as Hn.
      rewrite !double_of_Z_opp in Hn. lia.
Qed.

(** ** More on the timestamp decoder *)

(** X1. The decoder is monotone on [int64_t]: a timestamp that is not earlier
    decodes to a second that is not earlier. *)
Theorem ConvertWebKitToUnixTime_monotone (a b : Z) :
  Int64.in_range a -> Int64.in_range b -> a <= b ->
  ConvertWebKitToUnixTime a <= ConvertWebKitToUnixTime b.
Proof.
  intros Ha Hb Hab. rewrite !ConvertWebKitToUnixTime_eq by assumption.
  pose proof (Z.quot_le_mono a b 1000000 ltac:(lia) Hab). lia.
Qed.

Lemma ConvertWebKitToUnixTime_monotone_witness :
  ConvertWebKitToUnixTime (-1) <= ConvertWebKitToUnixTime 13348540800000000.
Proof.
  apply (ConvertWebKitToUnixTime_monotone (-1) 13348540800000000); solve_range.
Defined.

(** X2. Adding a whole second (1000000 microseconds) to the encoded timestamp
    adds exactly one to the decoded second, except for timestamps strictly
    between -1000000 and 0, where the truncation toward zero keeps the
    decoded second unchanged. *)
Theorem ConvertWebKitToUnixTime_second_step (webkitTime : Z) :
  Int64.in_range webkitTime -> Int64.in_range (webkitTime + 1000000) ->
  ConvertWebKitToUnixTime (webkitTime + 1000000)
  = ConvertWebKitToUnixTime webkitTime
    + (if (-1000000 <? webkitTime) && (webkitTime <? 0) then 0 else 1).
Proof.
  intros H H1. rewrite !ConvertWebKitToUnixTime_eq by assumption.
  pose proof (Z.quot_rem' webkitTime 1000000) as Hq.
  pose proof (Z.quot_rem' (webkitTime + 1000000) 1000000) as Hq1.
  destruct (Z.ltb_spec (-1000000) webkitTime), (Z.ltb_spec webkitTime 0); cbn [andb].
  - pose proof (Z.rem_bound_pos_neg webkitTime 1000000 ltac:(lia) ltac:(lia)).
    pose proof (Z.rem_bound_pos (webkitTime + 1000000) 1000000 ltac:(lia) ltac:(lia)).
    lia.
  - pose proof (Z.rem_bound_pos webkitTime 1000000 ltac:(lia) ltac:(lia)).
    pose proof (Z.rem_bound_pos (webkitTime + 1000000) 1000000 ltac:(lia) ltac:(lia)).
    lia.
  - pose proof (Z.rem_bound_pos_neg webkitTime 1000000 ltac:(lia) ltac:(lia)).
    pose proof (Z.rem_bound_pos_neg (webkitTime + 1000000) 1000000 ltac:(lia) ltac:(lia)).
    lia.
  - lia.
Qed.

Lemma ConvertWebKitToUnixTime_second_step_witness :
  ConvertWebKitToUnixTime (-500000 + 1000000) = ConvertWebKitToUnixTime (-500000)
  /\ ConvertWebKitToUnixTime (13348540800000000 + 1000000)
     = ConvertWebKitToUnixTime 13348540800000000 + 1.
Proof.
  split.
  - rewrite (ConvertWebKitToUnixTime_second_step (-500000)) by solve_range.
    cbn. lia.
  - rewrite (ConvertWebKitToUnixTime_second_step 13348540800000000) by solve_range.
    reflexivity.
Defined.

(** ** More on the recency window *)

(** X3. The window test is one-sided and monotone among visit times on
    the same side of the epoch: a visit time that passes still passes when
    the visit is later or the window is longer, provided the two visit
    times are not a negative one followed by a non-negative one ([difftime]
    returns 0 for the former).  No bound on the magnitudes is needed. *)
Theorem within_range_upward_closed
    (currentTime timeRangeInSeconds timeRangeInSeconds' visit visit' : time_t) :
  0 <= visit \/ visit' < 0 ->
  visit <= visit' -> timeRangeInSeconds <= timeRangeInSeconds' ->
  within_range currentTime timeRangeInSeconds visit = true ->
  within_range currentTime timeRangeInSeconds' visit' = true.
Proof.
  unfold within_range, difftime. intros Hside Hv Hr Hin.
  apply Z.leb_le in Hin. apply Z.leb_le.
  pose proof (double_of_Z_mono (currentTime - visit') (currentTime - visit) ltac:(lia)).
  pose proof (double_of_Z_mono timeRangeInSeconds timeRangeInSeconds' Hr).
  destruct (Z.leb_spec 0 currentTime), (Z.leb_spec 0 visit), (Z.leb_spec 0 visit');
    cbn [andb] in *; lia.
Qed.

Lemma within_range_upward_closed_witness :
  within_range 1704067800 3600 1704067500 = true.
Proof.
  apply (within_range_upward_closed 1704067800 600 3600 1704067200 1704067500);
    try lia.
  vm_compute. reflexivity.
Defined.

(** Along the query's order, among rows that decode to 1970 or later, the
    window test can only switch off. *)
Lemma in_window_later currentTime timeRangeInSeconds r1 r2 :
  Int64.in_range (row_time r1) -> Int64.in_range (row_time r2) ->
  0 <= ConvertWebKitToUnixTime (row_time r2) ->
  later r1 r2 ->
  in_window currentTime timeRangeInSeconds r2 = true ->
  in_window currentTime timeRangeInSeconds r1 = true.
Proof.
  unfold later, in_window, within_range, difftime. intros H1 H2 Hpos Hlater Hin.
  apply Z.leb_le in Hin. apply Z.leb_le.
  rewrite !ConvertWebKitToUnixTime_eq in * by assumption.
  pose proof (Z.quot_le_mono _ _ 1000000 ltac:(lia) Hlater) as Hq.
  pose proof (double_of_Z_mono
                (currentTime - (Z.quot (row_time r1) 1000000 - 11644473600))
                (currentTime - (Z.quot (row_time r2) 1000000 - 11644473600))
                ltac:(lia)).
  destruct (Z.leb_spec 0 currentTime),
    (Z.leb_spec 0 (Z.quot (row_time r1) 1000000 - 11644473600)),
    (Z.leb_spec 0 (Z.quot (row_time r2) 1000000 - 11644473600));
    cbn [andb] in *; lia.
Qed.

Lemma filter_none {A} (keep : A -> bool) (l : list A) :
  Forall (fun x => keep x = false) l -> List.filter keep l = [].
Proof.
  induction 1 as [| x l Hx _ IH]; [reflexivity |].
  cbn [List.filter]. rewrite Hx. assumption.
Qed.

(** In a statement in the query's order whose rows decode to 1970 or later
    the rows inside the window come first. *)
Lemma in_window_prefix currentTime timeRangeInSeconds stmt :
  StronglySorted later stmt ->
  Forall (fun r => Int64.in_range (row_time r)
                   /\ 0 <= ConvertWebKitToUnixTime (row_time r)) stmt ->
  exists k, List.filter (in_window currentTime timeRangeInSeconds) stmt = take k stmt.
Proof.
  induction 1 as [| r stmt Hsorted IH Hlater]; intros Hrange.
  - exists 0%nat. reflexivity.
  - inversion Hrange as [| ? ? [Hr Hr0] Hrest]; subst.
    cbn [List.filter].
    destruct (in_window currentTime timeRangeInSeconds r) eqn:Hin.
    + destruct (IH Hrest) as [k Hk]. exists (S k). cbn [take]. rewrite Hk. reflexivity.
    + exists 0%nat. cbn [take]. apply filter_none.
      rewrite Forall_forall in Hlater, Hrest |- *. intros x Hx.
      destruct (in_window currentTime timeRangeInSeconds x) eqn:Hinx; [| reflexivity].
      destruct (Hrest x Hx) as [Hxr Hx0].
      rewrite (in_window_later currentTime timeRangeInSeconds r x) in Hin; auto.
Qed.

Lemma reached_prefix currentTime timeRangeInSeconds stmt :
  exists j, reached currentTime timeRangeInSeconds stmt = take j stmt.
Proof.
  induction stmt as [| r stmt [j Hj]]; [exists 0%nat; reflexivity |].
  cbn [reached]. destruct (null_in_window currentTime timeRangeInSeconds r).
  - exists 0%nat. reflexivity.
  - exists (S j). cbn [take]. rewrite Hj. reflexivity.
Qed.

Lemma StronglySorted_take {A} (R : A -> A -> Prop) (l : list A) k :
  StronglySorted R l -> StronglySorted R (take k l).
Proof. apply StronglySorted_sublist, sublist_take. Qed.

(** X4. When the extraction passes its three stages on a store whose
    [int64_t] timestamps all decode to 1970 or later, what it prints is the
    lines of a leading segment of the query result: the [k] most recent
    visits for some [k], each at least as recent as every visit not
    printed. *)
Theorem printed_most_recent_first (E : Env) (p : list N)
    (currentTime timeRangeInSeconds : time_t) (s : State) (f : File) (stmt : list Row) :
  failing_stage E p s = None ->
  fs s !! p = Some f -> store_rows f = Some stmt ->
  Forall (fun r => Int64.in_range (row_time r)
                   /\ 0 <= ConvertWebKitToUnixTime (row_time r)) stmt ->
  exists k,
    out (final_state (PrintUrlsFromDatabase E p currentTime timeRangeInSeconds s))
    = out s ++ List.map (line_of E) (take k stmt)
    /\ forall r r', r ∈ take k stmt -> r' ∈ drop k stmt -> later r r'.
Proof.
  intros Hvalid Hsrc Hrows Hrange.
  pose proof (store_rows_sorted f stmt Hrows) as Hsorted.
  destruct (reached_prefix currentTime timeRangeInSeconds stmt) as [j Hj].
  destruct (in_window_prefix currentTime timeRangeInSeconds (take j stmt)) as [k Hk].
  { apply StronglySorted_take. assumption. }
  { apply Forall_take. assumption. }
  exists (k `min` j)%nat. split.
  - destruct (PrintUrlsFromDatabase_extraction E p currentTime timeRangeInSeconds s)
      as [| t what Hfresh | t f' Hfresh Hp Hne | t f' errmsg Hfresh Hp Hne Hrows'
          | t f' stmt' Hfresh Hp Hne Hrows' Hnull | t f' stmt' Hfresh Hp Hne Hrows' Hnull];
      try discriminate Hvalid; state_simpl.
    all: assert (f' = f) by congruence; subst f'.
    all: assert (stmt' = stmt) by congruence; subst stmt'.
    all: unfold printed; rewrite Hj, Hk, take_take; reflexivity.
  - intros r r' Hr Hr'.
    rewrite <- (take_drop (k `min` j)%nat stmt) in Hsorted.
    eapply StronglySorted_app_1_elem_of; eassumption.
Qed.

Lemma printed_most_recent_first_witness :
  exists k stmt,
    store_rows (Sample.file_of (SQLite Sample.two_visits)) = Some stmt
    /\ out (final_state (PrintUrlsFromDatabase Sample.env Sample.chrome_path
                           1704067800 600 Sample.world_chrome_only))
       = out Sample.world_chrome_only ++ List.map (line_of Sample.env) (take k stmt).
Proof.
  assert (Hrows : store_rows (Sample.file_of (SQLite Sample.two_visits))
                  = Some [ {| row_url := Some "https://example.com"%string;
                              row_time := 13348541340000000 |};
                           {| row_url := Some "https://example.org"%string;
                              row_time := 13348540800000000 |} ])
    by (vm_compute; reflexivity).
  destruct (printed_most_recent_first Sample.env Sample.chrome_path 1704067800 600
              Sample.world_chrome_only _ _
              ltac:(vm_compute; reflexivity) ltac:(vm_compute; reflexivity) Hrows)
    as (k & Hout & _).
  - repeat constructor; cbn [row_time]; try solve_range; vm_compute; discriminate.
  - exists k. eexists. split; [exact Hrows | exact Hout].
Defined.

(** ** More on the string conversion *)

(** X5. When [MultiByteToWideChar] converts a non-empty string to a text
    followed by the terminating NUL, [ConvertUtf8ToWide] returns the text
    with that NUL inside the wide string (its length is one more than the
    text's), and [c_str] of it is the text. *)
Theorem ConvertUtf8ToWide_keeps_terminator (E : Env) (utf8Str : string) (text : list N) :
  utf8Str <> EmptyString ->
  MultiByteToWideChar E utf8Str = text ++ [0%N] ->
  Forall (fun c => c <> 0%N) text ->
  ConvertUtf8ToWide E utf8Str = text ++ [0%N]
  /\ length (ConvertUtf8ToWide E utf8Str) = S (length text)
  /\ c_str (ConvertUtf8ToWide E utf8Str) = text.
Proof.
  intros Hne Hconv Htext. unfold ConvertUtf8ToWide.
  destruct utf8Str as [| a rest]; [congruence |]. cbn [empty]. cbv zeta.
  rewrite Hconv.
  assert (Hlen : length (text ++ [0%N]) = S (length text))
    by (rewrite length_app; cbn [length]; lia).
  rewrite Hlen. cbn [Nat.eqb].
  split; [reflexivity |]. split; [exact Hlen |].
  clear Hconv Hlen.
  induction Htext as [| c text Hc _ IH]; [reflexivity |].
  cbn [app c_str]. destruct (N.eqb_spec c 0); [contradiction |].
  rewrite IH. reflexivity.
Qed.

Lemma ConvertUtf8ToWide_keeps_terminator_witness :
  length (ConvertUtf8ToWide Sample.env "https://example.com") = 20%nat
  /\ c_str (ConvertUtf8ToWide Sample.env "https://example.com") = L "https://example.com".
Proof.
  destruct (ConvertUtf8ToWide_keeps_terminator Sample.env "https://example.com"
              (L "https://example.com")) as (_ & Hlen & Hc).
  - discriminate.
  - vm_compute. reflexivity.
  - repeat constructor; vm_compute; discriminate.
  - split; [exact Hlen | exact Hc].
Defined.

(** X6. A row inside the window whose URL is the empty string, or whose URL
    cannot be converted, is not skipped: it is printed with an empty URL
    field. *)
Theorem empty_url_is_printed (E : Env) (currentTime timeRangeInSeconds : time_t)
    (r : Row) (u : string) (s : State) :
  row_url r = Some u ->
  u = EmptyString \/ MultiByteToWideChar E u = [] ->
  in_window currentTime timeRangeInSeconds r = true ->
  process_row E currentTime timeRangeInSeconds r s
  = Returned tt
      (add_out (L "URL: , Visit Time (UTC): "
                ++ FormatUnixTimeToUTC E (ConvertWebKitToUnixTime (row_time r))
                ++ newline) s).
Proof.
  intros Hurl Hempty Hin. unfold process_row, sqlite3_column_text, sqlite3_column_int64.
  change (within_range currentTime timeRangeInSeconds
            (ConvertWebKitToUnixTime (row_time r)))
    with (in_window currentTime timeRangeInSeconds r).
  rewrite Hin, Hurl. rewrite bind_unfold. cbn [std_string wprintf].
  assert (Hconv : ConvertUtf8ToWide E u = []).
  { unfold ConvertUtf8ToWide. destruct Hempty as [-> | Hfail]; [reflexivity |].
    rewrite Hfail. destruct (empty u); reflexivity. }
  rewrite Hconv. unfold entry_line.
  destruct (FormatUnixTimeToUTC_results E (ConvertWebKitToUnixTime (row_time r)))
    as [_ ->].
  reflexivity.
Qed.

Lemma empty_url_is_printed_witness :
  process_row Sample.env 1704067800 600
    {| row_url := Some EmptyString; row_time := 13348541340000000 |}
    Sample.world_chrome_only
  = Returned tt
      (add_out (L "URL: , Visit Time (UTC): 2024-01-01 00:09:00" ++ newline)
         Sample.world_chrome_only).
Proof.
  rewrite (empty_url_is_printed Sample.env 1704067800 600
             {| row_url := Some EmptyString; row_time := 13348541340000000 |}
             EmptyString Sample.world_chrome_only eq_refl (or_introl eq_refl)).
  - vm_compute. reflexivity.
  - vm_compute. reflexivity.
Defined.

(** ** More on the time formatter *)

(** X7. On a platform whose [gmtime_s] accepts only four-digit years, two
    accepted times with the same formatted string are the same second. *)
Theorem FormatUnixTimeToUTC_injective (E : Env) (t1 t2 : time_t) :
  year_1000_start <= gmtime_min E -> gmtime_max E <= year_9999_end ->
  gmtime_s E t1 <> None -> gmtime_s E t2 <> None ->
  FormatUnixTimeToUTC E t1 = FormatUnixTimeToUTC E t2 -> t1 = t2.
Proof.
  intros Hmin Hmax H1 H2. unfold FormatUnixTimeToUTC.
  destruct (gmtime_s E t1) as [b1 |] eqn:Hg1; [| congruence].
  destruct (gmtime_s E t2) as [b2 |] eqn:Hg2; [| congruence].
  apply gmtime_s_Some in Hg1, Hg2. destruct Hg1 as [Hr1 ->], Hg2 as [Hr2 ->].
  intros Heq. apply (f_equal read_timestamp) in Heq.
  rewrite !read_timestamp_wcsftime in Heq by (apply utc_of_time_valid; lia).
  apply (f_equal time_of_utc) in Heq. rewrite !time_of_utc_of_time in Heq.
  exact Heq.
Qed.

Lemma FormatUnixTimeToUTC_injective_witness :
  FormatUnixTimeToUTC Sample.env 1704067740 <> FormatUnixTimeToUTC Sample.env 1704067741.
Proof.
  intros Heq.
  apply (FormatUnixTimeToUTC_injective Sample.env 1704067740 1704067741) in Heq;
    [discriminate Heq | vm_compute; discriminate ..].
Defined.

(** X8. The formatter returns [Invalid time] exactly when [gmtime_s] rejects the
    time. *)
Theorem sentinel_iff_rejected (E : Env) (unixTime : time_t) :
  FormatUnixTimeToUTC E unixTime = L "Invalid time" <-> gmtime_s E unixTime = None.
Proof.
  unfold FormatUnixTimeToUTC. destruct (gmtime_s E unixTime) as [b |].
  - split; [| discriminate]. intros Heq.
    pose proof (timestamp_form_wcsftime b) as Hform. rewrite Heq in Hform.
    vm_compute in Hform. discriminate.
  - split; reflexivity.
Qed.

(** ** More on the copy *)

(** X10. When [CopyDatabaseToTemp] returns true, the source exists, the temporary
    path named no file before, the file system afterwards is the old one
    with the source's file added at the temporary path, and nothing was
    printed. *)
Theorem CopyDatabaseToTemp_success (E : Env) (dbPath tempDbPath : list N) (s s1 : State) :
  CopyDatabaseToTemp E dbPath s = Returned (true, tempDbPath) s1 ->
  exists f,
    fs s !! dbPath = Some f /\ fs s !! tempDbPath = None
    /\ fs s1 = <[tempDbPath := f]> (fs s)
    /\ out s1 = out s.
Proof.
  intros Hrun.
  destruct (CopyDatabaseToTemp_cases E dbPath s)
    as [Hc | [(t & what & Hfresh & Hc) | (t & f & Hfresh & Hsrc & Hne & Hc)]];
    rewrite Hc in Hrun; inversion Hrun; subst.
  exists f. state_simpl. rewrite insert_insert_eq. auto.
Qed.

Lemma CopyDatabaseToTemp_success_witness :
  exists f,
    fs Sample.world_chrome_only !! Sample.chrome_path = Some f
    /\ fs Sample.world_chrome_only !! Sample.first_temp = None.
Proof.
  destruct (CopyDatabaseToTemp_success Sample.env Sample.chrome_path Sample.first_temp
              Sample.world_chrome_only
              (copied Sample.env Sample.chrome_path Sample.first_temp
                 (Sample.file_of (SQLite Sample.two_visits)) Sample.world_chrome_only))
    as (f & Hsrc & Hfresh & _).
  - vm_compute. reflexivity.
  - exists f. split; assumption.
Defined.

(** X11. When [CopyDatabaseToTemp] returns false, either no temporary name was
    allocated (the path returned is empty and the world is unchanged), or
    the only change is a new empty file at the fresh temporary path and one
    [Failed to copy database:] line. *)
Theorem CopyDatabaseToTemp_failure (E : Env) (dbPath tempDbPath : list N) (s s1 : State) :
  CopyDatabaseToTemp E dbPath s = Returned (false, tempDbPath) s1 ->
  (tempDbPath = [] /\ s1 = s)
  \/ (fs s !! tempDbPath = None
      /\ fs s1 = <[tempDbPath := empty_file E]> (fs s)
      /\ exists what, out s1 = out s ++ [copy_diagnostic E what]).
Proof.
  intros Hrun.
  destruct (CopyDatabaseToTemp_cases E dbPath s)
    as [Hc | [(t & what & Hfresh & Hc) | (t & f & Hfresh & Hsrc & Hne & Hc)]];
    rewrite Hc in Hrun; inversion Hrun; subst.
  - left. auto.
  - right. state_simpl. eauto.
Qed.

Lemma CopyDatabaseToTemp_failure_witness :
  fs Sample.world_chrome_only !! Sample.first_temp = None.
Proof.
  destruct (CopyDatabaseToTemp_failure Sample.env Sample.edge_path Sample.first_temp
              Sample.world_chrome_only
              (add_out (copy_diagnostic Sample.env "copy_file: no such file or directory")
                 (created Sample.env Sample.first_temp Sample.world_chrome_only)))
    as [[Hnil _] | (Hfresh & _)].
  - vm_compute. reflexivity.
  - discriminate Hnil.
  - exact Hfresh.
Defined.

(** X12. When the source does not exist, [CopyDatabaseToTemp] returns false, and
    every file that existed is unchanged. *)
Theorem CopyDatabaseToTemp_missing_source (E : Env) (dbPath : list N) (s : State) :
  fs s !! dbPath = None ->
  exists tempDbPath s1,
    CopyDatabaseToTemp E dbPath s = Returned (false, tempDbPath) s1
    /\ forall q f, fs s !! q = Some f -> fs s1 !! q = Some f.
Proof.
  intros Hmissing.
  destruct (CopyDatabaseToTemp_cases E dbPath s)
    as [Hc | [(t & what & Hfresh & Hc) | (t & f & Hfresh & Hsrc & Hne & Hc)]].
  - eexists _, _. split; [exact Hc | auto].
  - eexists _, _. split; [exact Hc |]. state_simpl. intros q f Hq.
    rewrite lookup_insert_ne; [assumption |]. intros ->. congruence.
  - congruence.
Qed.

Lemma CopyDatabaseToTemp_missing_source_witness :
  exists tempDbPath s1,
    CopyDatabaseToTemp Sample.env Sample.edge_path Sample.world_chrome_only
    = Returned (false, tempDbPath) s1.
Proof.
  destruct (CopyDatabaseToTemp_missing_source Sample.env Sample.edge_path
              Sample.world_chrome_only) as (t & s1 & Hrun & _).
  - vm_compute. reflexivity.
  - exists t, s1. exact Hrun.
Defined.

(** ** More on one extraction *)

(** X13. On every path through one extraction, crash included, every file that
    existed before is unchanged afterwards, and the file system differs from
    the old one at one path at most. *)
Theorem PrintUrlsFromDatabase_frame (E : Env) (p : list N)
    (currentTime timeRangeInSeconds : time_t) (s : State) :
  let s' := final_state (PrintUrlsFromDatabase E p currentTime timeRangeInSeconds s) in
  (forall q f, fs s !! q = Some f -> fs s' !! q = Some f)
  /\ exists t, forall q, q <> t -> fs s' !! q = fs s !! q.
Proof.
  intros s'. subst s'.
  destruct (PrintUrlsFromDatabase_extraction E p currentTime timeRangeInSeconds s)
    as [| t what Hfresh | t f' Hfresh Hp Hne | t f' errmsg Hfresh Hp Hne Hrows
        | t f' stmt Hfresh Hp Hne Hrows Hnull | t f' stmt Hfresh Hp Hne Hrows Hnull];
    state_simpl; try rewrite insert_insert_eq.
  - split; [auto | exists []; auto].
  - split.
    + intros q f Hq. rewrite lookup_insert_ne; [assumption |]. intros ->. congruence.
    + exists t. intros q Hq. apply lookup_insert_ne. congruence.
  - split.
    + intros q f Hq. rewrite lookup_insert_ne; [assumption |]. intros ->. congruence.
    + exists t. intros q Hq. apply lookup_insert_ne. congruence.
  - split.
    + intros q f Hq. rewrite lookup_insert_ne; [assumption |]. intros ->. congruence.
    + exists t. intros q Hq. apply lookup_insert_ne. congruence.
  - split.
    + intros q f Hq. rewrite lookup_insert_ne; [assumption |]. intros ->. congruence.
    + exists t. intros q Hq. apply lookup_insert_ne. congruence.
  - rewrite delete_insert_id by assumption. split; [auto | exists []; auto].
Qed.

(** X14. An extraction that passes its three stages and returns leaves the file
    system exactly as it found it, and its calls are, in order: create the
    temporary file, read the source, write the copy, open the copy, close
    it, remove it. *)
Theorem PrintUrlsFromDatabase_lifecycle (E : Env) (p : list N)
    (currentTime timeRangeInSeconds : time_t) (s s' : State) :
  failing_stage E p s = None ->
  PrintUrlsFromDatabase E p currentTime timeRangeInSeconds s = Returned tt s' ->
  fs s' = fs s
  /\ exists t,
       fs s !! t = None /\ t <> p
       /\ events s'
          = events s ++ [EvCreate t; EvRead p; EvWrite t; EvOpen t; EvClose t; EvRemove t].
Proof.
  intros Hvalid Hrun.
  destruct (PrintUrlsFromDatabase_extraction E p currentTime timeRangeInSeconds s)
    as [| t what Hfresh | t f' Hfresh Hp Hne | t f' errmsg Hfresh Hp Hne Hrows
        | t f' stmt Hfresh Hp Hne Hrows Hnull | t f' stmt Hfresh Hp Hne Hrows Hnull];
    try discriminate Hvalid; try discriminate Hrun.
  inversion Hrun. state_simpl. split.
  - rewrite insert_insert_eq. apply delete_insert_id. assumption.
  - exists t. split; [assumption |]. split; [congruence |].
    rewrite <- !app_assoc. reflexivity.
Qed.

Lemma PrintUrlsFromDatabase_lifecycle_witness :
  exists s',
    PrintUrlsFromDatabase Sample.env Sample.chrome_path 1704067800 600
      Sample.world_chrome_only = Returned tt s'
    /\ fs s' = fs Sample.world_chrome_only.
Proof.
  eexists. split; [vm_compute; reflexivity |].
  eapply (PrintUrlsFromDatabase_lifecycle Sample.env Sample.chrome_path 1704067800 600
            Sample.world_chrome_only).
  - vm_compute. reflexivity.
  - vm_compute. reflexivity.
Defined.

(** X15. An extraction that gives up at some stage prints at least one line and
    only diagnostics; an extraction that passes its three stages prints only
    entries. *)
Theorem diagnostics_or_entries (E : Env) (p : list N)
    (currentTime timeRangeInSeconds : time_t) (s : State) :
  exists new,
    out (final_state (PrintUrlsFromDatabase E p currentTime timeRangeInSeconds s))
    = out s ++ new
    /\ match failing_stage E p s with
       | Some _ =>
           new <> []
           /\ Forall (fun line => is_diagnostic line = true /\ is_entry line = false) new
       | None =>
           Forall (fun line => is_entry line = true /\ is_diagnostic line = false) new
       end.
Proof.
  destruct (PrintUrlsFromDatabase_extraction E p currentTime timeRangeInSeconds s)
    as [| t what Hfresh | t f' Hfresh Hp Hne | t f' errmsg Hfresh Hp Hne Hrows
        | t f' stmt Hfresh Hp Hne Hrows Hnull | t f' stmt Hfresh Hp Hne Hrows Hnull];
    state_simpl.
  - exists [copy_giveup_line p]. split; [reflexivity |]. split; [discriminate |].
    repeat constructor; apply copy_giveup_line_diagnostic.
  - exists [copy_diagnostic E what; copy_giveup_line p]. rewrite <- app_assoc.
    split; [reflexivity |]. split; [discriminate |].
    repeat constructor;
      apply copy_diagnostic_diagnostic || apply copy_giveup_line_diagnostic.
  - exists [open_line t]. split; [reflexivity |]. split; [discriminate |].
    repeat constructor; apply open_line_diagnostic.
  - exists [prepare_line errmsg]. split; [reflexivity |]. split; [discriminate |].
    repeat constructor; apply prepare_line_diagnostic.
  - exists (printed E currentTime timeRangeInSeconds stmt). split; [reflexivity |].
    unfold printed. apply Forall_forall. intros line Hline.
    apply list_elem_of_In, List.in_map_iff in Hline. destruct Hline as (r & <- & _).
    split; vm_compute; reflexivity.
  - exists (printed E currentTime timeRangeInSeconds stmt). split; [reflexivity |].
    unfold printed. apply Forall_forall. intros line Hline.
    apply list_elem_of_In, List.in_map_iff in Hline. destruct Hline as (r & <- & _).
    split; vm_compute; reflexivity.
Qed.

(** ** More on the row loop *)

(** X16. When every row with a NULL URL is outside the window, the row loop
    returns and prints exactly one line for each row inside the window, in
    the statement's order. *)
Theorem null_outside_window_is_harmless (E : Env)
    (currentTime timeRangeInSeconds : time_t) (stmt : list Row) (s : State) :
  Forall (fun r => row_url r = None -> in_window currentTime timeRangeInSeconds r = false)
         stmt ->
  step_rows E currentTime timeRangeInSeconds stmt s
  = Returned tt
      (add_outs (List.map (line_of E)
                   (List.filter (in_window currentTime timeRangeInSeconds) stmt)) s).
Proof.
  intros Hout.
  assert (Hnull : existsb (null_in_window currentTime timeRangeInSeconds) stmt = false).
  { induction Hout as [| r stmt Hr _ IH]; [reflexivity |].
    cbn [existsb]. rewrite IH. unfold null_in_window.
    destruct (row_url r); [rewrite andb_false_r; reflexivity |].
    rewrite Hr by reflexivity. reflexivity. }
  rewrite step_rows_spec, Hnull. unfold printed.
  rewrite reached_all by assumption. reflexivity.
Qed.

Lemma null_outside_window_is_harmless_witness :
  step_rows Sample.env 1704067800 600
    [ {| row_url := Some "https://example.com"%string; row_time := 13348541340000000 |};
      {| row_url := None; row_time := 13348540000000000 |} ]
    Sample.world_chrome_only
  = Returned tt
      (add_outs
         [L "URL: https://example.com, Visit Time (UTC): 2024-01-01 00:09:00" ++ newline]
         Sample.world_chrome_only).
Proof.
  rewrite (null_outside_window_is_harmless Sample.env 1704067800 600).
  - vm_compute. reflexivity.
  - constructor; [intros Hnull; discriminate Hnull |].
    constructor; [intros _; vm_compute; reflexivity | constructor].
Defined.

(** X9. For a non-negative encoded timestamp whose decoded time [gmtime_s]
    accepts, the time printed, read back as UTC, is the whole second that
    contains the visit. *)
Theorem printed_second_contains_visit (E : Env) (webkitTime : Z) :
  year_1000_start <= gmtime_min E -> gmtime_max E <= year_9999_end ->
  Int64.in_range webkitTime -> 0 <= webkitTime ->
  gmtime_s E (ConvertWebKitToUnixTime webkitTime) <> None ->
  let shown :=
    time_of_utc (read_timestamp
                   (FormatUnixTimeToUTC E (ConvertWebKitToUnixTime webkitTime))) in
  (shown + 11644473600) * 1000000 <= webkitTime
  < (shown + 11644473600) * 1000000 + 1000000.
Proof.
  intros Hmin Hmax Hrange Hpos Hacc shown. subst shown.
  unfold FormatUnixTimeToUTC.
  destruct (gmtime_s E (ConvertWebKitToUnixTime webkitTime)) as [b |] eqn:Hg;
    [| congruence].
  apply gmtime_s_Some in Hg. destruct Hg as [Hr ->].
  rewrite read_timestamp_wcsftime by (apply utc_of_time_valid; lia).
  rewrite time_of_utc_of_time, ConvertWebKitToUnixTime_eq by assumption.
  pose proof (Z.quot_rem' webkitTime 1000000) as Hq.
  pose proof (Z.rem_bound_pos webkitTime 1000000 Hpos ltac:(lia)). lia.
Qed.

Lemma printed_second_contains_visit_witness :
  let shown :=
    time_of_utc (read_timestamp
                   (FormatUnixTimeToUTC Sample.env
                      (ConvertWebKitToUnixTime 13348541340999999))) in
  (shown + 11644473600) * 1000000 <= 13348541340999999
  < (shown + 11644473600) * 1000000 + 1000000.
Proof.
  apply (printed_second_contains_visit Sample.env 13348541340999999);
    try solve_range; vm_compute; discriminate.
Defined.

(** ** More on the whole program *)

(** Files that exist are still there, unchanged, after an extraction. *)
Lemma PrintUrlsFromDatabase_keeps_files E p currentTime timeRangeInSeconds s q f :
  fs s !! q = Some f ->
  fs (final_state (PrintUrlsFromDatabase E p currentTime timeRangeInSeconds s)) !! q
  = Some f.
Proof.
  intros Hq.
  destruct (PrintUrlsFromDatabase_extraction E p currentTime timeRangeInSeconds s)
    as [| t what Hfresh | t f' Hfresh Hp Hne | t f' errmsg Hfresh Hp Hne Hrows
        | t f' stmt Hfresh Hp Hne Hrows Hnull | t f' stmt Hfresh Hp Hne Hrows Hnull];
    state_simpl; try rewrite insert_insert_eq;
    try rewrite delete_insert_id by assumption; try assumption.
  all: rewrite lookup_insert_ne; [assumption |]; intros ->; congruence.
Qed.

(** X18. Whatever happens in the program, crash included, every file that existed
    when it started is unchanged when it stops. *)
Theorem wmain_keeps_files (E : Env) (s : State) (q : list N) (f : File) :
  fs s !! q = Some f -> fs (final_state (wmain E s)) !! q = Some f.
Proof.
  intros Hq. unfold wmain.
  destruct (GetUserProfilePath E) as [| c path]; [exact Hq |].
  rewrite bind_unfold. cbn [wprintf]. rewrite bind_unfold.
  set (s0 := add_out (L "Checking Chrome browsing history:" ++ newline) s).
  pose proof (PrintUrlsFromDatabase_keeps_files E ((c :: path) ++ L chrome_suffix)
                (time_now E) (10 * 60) s0 q f Hq) as H1.
  destruct (PrintUrlsFromDatabase E ((c :: path) ++ L chrome_suffix)
              (time_now E) (10 * 60) s0) as [[] s1 | s1]; cbn [final_state] in H1;
    [| exact H1].
  rewrite bind_unfold. cbn [wprintf]. rewrite bind_unfold.
  set (s1' := add_out (newline ++ L "Checking Edge browsing history:" ++ newline) s1).
  pose proof (PrintUrlsFromDatabase_keeps_files E ((c :: path) ++ L edge_suffix)
                (time_now E) (10 * 60) s1' q f H1) as H2.
  destruct (PrintUrlsFromDatabase E ((c :: path) ++ L edge_suffix)
              (time_now E) (10 * 60) s1') as [[] s2 | s2]; exact H2.
Qed.

Lemma wmain_keeps_files_witness :
  fs (final_state (wmain Sample.env Sample.world_chrome_garbage)) !! Sample.edge_path
  = Some (Sample.file_of (SQLite Sample.two_visits)).
Proof.
  apply (wmain_keeps_files Sample.env Sample.world_chrome_garbage).
  vm_compute. reflexivity.
Defined.




Lemma c_str_Forall w : Forall (fun c => c <> 0%N) (c_str w).
Proof.
  induction w as [| c w IH]; cbn [c_str]; [constructor |].
  destruct (N.eqb_spec c 0); constructor; assumption.
Qed.

(** X20. The two store paths the program builds differ, hold no NUL (so a
    diagnostic prints them in full), and extend the profile path, which is a
    prefix of the buffer [SHGetFolderPathW] filled. *)
Theorem store_paths (E : Env) :
  let chromeHistoryPath := GetUserProfilePath E ++ L chrome_suffix in
  let edgeHistoryPath := GetUserProfilePath E ++ L edge_suffix in
  chromeHistoryPath <> edgeHistoryPath
  /\ c_str chromeHistoryPath = chromeHistoryPath
  /\ c_str edgeHistoryPath = edgeHistoryPath
  /\ forall path, SHGetFolderPathW E = Some path ->
                  GetUserProfilePath E `prefix_of` path.
Proof.
  cbv zeta. split; [| split; [| split]].
  - intros Heq. apply app_inv_head in Heq. vm_compute in Heq. discriminate Heq.
  - apply c_str_no_nul. apply Forall_app. split.
    + unfold GetUserProfilePath. destruct (SHGetFolderPathW E); [| constructor].
      apply c_str_Forall.
    + vm_compute. repeat constructor; discriminate.
  - apply c_str_no_nul. apply Forall_app. split.
    + unfold GetUserProfilePath. destruct (SHGetFolderPathW E); [| constructor].
      apply c_str_Forall.
    + vm_compute. repeat constructor; discriminate.
  - intros path Hpath. unfold GetUserProfilePath. rewrite Hpath. clear Hpath.
    induction path as [| c path IH]; cbn [c_str]; [reflexivity |].
    destruct (N.eqb_spec c 0); [apply prefix_nil |].
    apply prefix_cons. exact IH.
Qed.

